(** * OpenAPI path extractor: reference resolution, schema normalisation
      and operation extraction

    A shallow embedding of [src/openapi/extract.py] (class
    [OpenAPIPathExtractor] and [to_camel_case]) and the properties of it
    that the specification states.

    Conventions of the embedding.
    - A parsed document is a [json] tree, the values [json.load] builds:
      [None], [bool], [int], [float], [str], [list], [dict].  A [dict] is an
      insertion-ordered association list; its keys are Python values too,
      because [convert_parameters_to_json_schema] stores a parameter's
      [name] as a key whatever its kind.  Documents that come out of
      [json.load] only have [JStr] keys.
    - [str] is a byte string (UTF-8).  The string operations used by the
      program ([startswith], [split('/')], [rstrip('/')], [replace], the
      ASCII classes of [re]) act bytewise on ASCII separators, so the byte
      view and the code-point view agree.
    - An exception is a value of [exn]; code that may raise returns a
      [result].  [print] is not modelled.  The call stack is unbounded
      (no [RecursionError]).
    - The instance attributes [self.spec] and [self.base_url] are Section
      variables; [self.resolved_refs] is a state threaded through every
      call, a [gmap string json]; a [visited] set is a [gset string].
    - The mutual recursion [resolve_reference] / [dereference_object] is not
      structural: [resolve_reference] takes a fuel that is consumed once for
      every reference entered, and returns [None] when it runs out.
      Termination is a theorem ([fuel_bound] always suffices). *)

From Stdlib Require Import ZArith String Ascii List Bool Lia.
From Stdlib Require Import Floats.SpecFloat.
From Stdlib Require Import DecimalString.
From stdpp Require Import gmap strings list.

Local Open Scope string_scope.
Local Open Scope list_scope.
Local Open Scope nat_scope.

(** ** Python values *)

Unset Elimination Schemes.
Inductive json :=
| JNull
| JBool (b : bool)
| JInt (z : Z)
| JFloat (f : spec_float)
| JStr (s : string)
| JList (l : list json)
| JDict (d : list (json * json)).
Set Elimination Schemes.

Abbreviation dict := (list (json * json)).

(** Induction over the tree, with the hypothesis on every element of a list
    and on every value of a dict. *)
Section json_induction.
Variable P : json → Prop.
Hypothesis HNull : P JNull.
Hypothesis HBool : ∀ b, P (JBool b).
Hypothesis HInt : ∀ z, P (JInt z).
Hypothesis HFloat : ∀ f, P (JFloat f).
Hypothesis HStr : ∀ s, P (JStr s).
Hypothesis HList : ∀ l, Forall P l → P (JList l).
Hypothesis HDict : ∀ d, Forall (λ kv, P kv.2) d → P (JDict d).

Fixpoint json_tree_ind (v : json) : P v :=
  match v with
  | JNull => HNull
  | JBool b => HBool b
  | JInt z => HInt z
  | JFloat f => HFloat f
  | JStr s => HStr s
  | JList l =>
      HList l ((fix go (l : list json) : Forall P l :=
                  match l with
                  | [] => List.Forall_nil P
                  | x :: r => List.Forall_cons P x r (json_tree_ind x) (go r)
                  end) l)
  | JDict d =>
      HDict d ((fix go (d : dict) : Forall (λ kv, P kv.2) d :=
                  match d with
                  | [] => List.Forall_nil (λ kv, P kv.2)
                  | kv :: r => List.Forall_cons (λ kv, P kv.2) kv r (json_tree_ind kv.2) (go r)
                  end) d)
  end.
End json_induction.

(** [bool(v)]: the truth value Python gives [v] in [if v] / [if not v]. *)
Definition truthy (v : json) : bool :=
  match v with
  | JNull => false
  | JBool b => b
  | JInt z => negb (z =? 0)%Z
  | JFloat (S754_zero _) => false
  | JFloat _ => true
  | JStr "" => false
  | JStr _ => true
  | JList [] => false
  | JList _ => true
  | JDict [] => false
  | JDict _ => true
  end.

Definition is_dict (v : json) : bool := match v with JDict _ => true | _ => false end.
Definition is_list (v : json) : bool := match v with JList _ => true | _ => false end.
Definition is_str (v : json) : bool := match v with JStr _ => true | _ => false end.
Definition is_none (v : json) : bool := match v with JNull => true | _ => false end.

(** [isinstance(v, (int, float))]: [bool] is a subclass of [int]. *)
Definition is_int_or_float (v : json) : bool :=
  match v with JInt _ | JFloat _ | JBool _ => true | _ => false end.
Definition is_bool (v : json) : bool := match v with JBool _ => true | _ => false end.

(** Lists and dicts are unhashable. *)
Definition hashable (v : json) : bool :=
  match v with JList _ | JDict _ => false | _ => true end.

(** The numeric value of a key, as mantissa and binary exponent. *)
Definition num_value (v : json) : option (Z * Z) :=
  match v with
  | JBool b => Some ((if b then 1 else 0)%Z, 0%Z)
  | JInt z => Some (z, 0%Z)
  | JFloat (S754_zero _) => Some (0%Z, 0%Z)
  | JFloat (S754_finite s m e) => Some ((if s then Z.neg m else Z.pos m), e)
  | _ => None
  end.

Definition num_eqb (x y : Z * Z) : bool :=
  let e := Z.min x.2 y.2 in
  (x.1 * 2 ^ (x.2 - e) =? y.1 * 2 ^ (y.2 - e))%Z.

(** [a == b] on hashable values, the test a dict applies to its keys:
    [True == 1 == 1.0], a string only equals a string. *)
Definition key_eqb (a b : json) : bool :=
  match a, b with
  | JNull, JNull => true
  | JStr s, JStr t => String.eqb s t
  | JFloat (S754_infinity s), JFloat (S754_infinity t) => Bool.eqb s t
  | _, _ =>
      match num_value a, num_value b with
      | Some x, Some y => num_eqb x y
      | _, _ => false
      end
  end.

(** [d[k]] / [d.get(k)] *)
Fixpoint dict_find (k : json) (d : dict) : option json :=
  match d with
  | [] => None
  | (k', v) :: r => if key_eqb k' k then Some v else dict_find k r
  end.

(** [k in d] for a string [k] *)
Definition dict_has (d : dict) (k : string) : bool :=
  match dict_find (JStr k) d with Some _ => true | None => false end.

(** [d[k] = v]: an existing key keeps its place (and its key object), a new
    key goes last. *)
Fixpoint dict_set (d : dict) (k v : json) : dict :=
  match d with
  | [] => [(k, v)]
  | (k', v') :: r => if key_eqb k' k then (k', v) :: r else (k', v') :: dict_set r k v
  end.

(** [obj[k]] for a string [k], when [obj] is a dict that has the key *)
Definition field (obj : json) (k : string) : option json :=
  match obj with JDict d => dict_find (JStr k) d | _ => None end.

(** [safe_get]: [obj.get(key, default)] on a dict, [default] otherwise. *)
Definition safe_get (obj : json) (key : string) (default : json) : json :=
  match obj with
  | JDict d => match dict_find (JStr key) d with Some v => v | None => default end
  | _ => default
  end.

(** ** Exceptions *)

Inductive exn :=
| ValueError (msg : string)
| TypeError
| AttributeError
| KeyError
| IndexError.

Inductive result (A : Type) :=
| Ok (a : A)
| Raise (e : exn).
Arguments Ok {A} a.
Arguments Raise {A} e.

Definition rbind {A B} (r : result A) (k : A → result B) : result B :=
  match r with Ok a => k a | Raise e => Raise e end.

(** ** Strings *)

(** [s.startswith(p)] *)
Fixpoint startswith (p s : string) : bool :=
  match p, s with
  | EmptyString, _ => true
  | String _ _, EmptyString => false
  | String a p', String b s' => Ascii.eqb a b && startswith p' s'
  end.

(** [s[n:]] *)
Fixpoint str_drop (n : nat) (s : string) : string :=
  match n, s with
  | O, _ => s
  | S n', String _ r => str_drop n' r
  | S _, EmptyString => EmptyString
  end.

Arguments startswith : simpl nomatch.
Arguments str_drop : simpl nomatch.

(** [s.split(sep)] for a one-character separator: never the empty list. *)
Fixpoint str_split (sep : ascii) (s : string) : list string :=
  match s with
  | EmptyString => [EmptyString]
  | String c r =>
      if Ascii.eqb c sep then EmptyString :: str_split sep r
      else match str_split sep r with
           | [] => [String c EmptyString]
           | w :: ws => String c w :: ws
           end
  end.

(** [sep.join(parts)] *)
Fixpoint str_join (sep : string) (parts : list string) : string :=
  match parts with
  | [] => EmptyString
  | [w] => w
  | w :: ws => w +:+ sep +:+ str_join sep ws
  end.

(** [s.rstrip(c)] for one character *)
Fixpoint str_rstrip (c : ascii) (s : string) : string :=
  match s with
  | EmptyString => EmptyString
  | String a r =>
      match str_rstrip c r with
      | EmptyString => if Ascii.eqb a c then EmptyString else String a EmptyString
      | r' => String a r'
      end
  end.

(** [s.replace(c, by)] for a one-character [c] *)
Fixpoint str_replace (c : ascii) (by_ : string) (s : string) : string :=
  match s with
  | EmptyString => EmptyString
  | String a r => if Ascii.eqb a c then by_ +:+ str_replace c by_ r
                  else String a (str_replace c by_ r)
  end.

Definition in_range (lo hi : nat) (a : ascii) : bool :=
  let n := nat_of_ascii a in (Nat.leb lo n && Nat.leb n hi)%bool.
Definition is_upper (a : ascii) : bool := in_range 65 90 a.
Definition is_lower (a : ascii) : bool := in_range 97 122 a.
Definition is_digit (a : ascii) : bool := in_range 48 57 a.
(** the class [[a-zA-Z0-9]] *)
Definition is_alnum (a : ascii) : bool := is_upper a || is_lower a || is_digit a.

Definition ascii_lower (a : ascii) : ascii :=
  if is_upper a then ascii_of_nat (nat_of_ascii a + 32) else a.
Definition ascii_upper (a : ascii) : ascii :=
  if is_lower a then ascii_of_nat (nat_of_ascii a - 32) else a.

Fixpoint str_map (f : ascii → ascii) (s : string) : string :=
  match s with
  | EmptyString => EmptyString
  | String a r => String (f a) (str_map f r)
  end.
Definition str_lower : string → string := str_map ascii_lower.
Definition str_upper : string → string := str_map ascii_upper.

Fixpoint str_exists (p : ascii → bool) (s : string) : bool :=
  match s with
  | EmptyString => false
  | String a r => p a || str_exists p r
  end.

(** [re.sub(r'[^a-zA-Z0-9]', ' ', text).split()]: the maximal runs of
    ASCII letters and digits.  [cur] is the run being read. *)
Fixpoint alnum_words (cur : string) (s : string) : list string :=
  match s with
  | EmptyString => match cur with EmptyString => [] | _ => [cur] end
  | String a r =>
      if is_alnum a then alnum_words (cur +:+ String a EmptyString) r
      else match cur with
           | EmptyString => alnum_words EmptyString r
           | _ => cur :: alnum_words EmptyString r
           end
  end.

(** [word[0].upper() + word[1:].lower()] *)
Definition capitalize (w : string) : string :=
  match w with
  | EmptyString => EmptyString
  | String a r => String (ascii_upper a) (str_lower r)
  end.

Definition to_camel_case (text : string) : string :=
  match alnum_words EmptyString text with
  | [] => EmptyString
  | w :: ws => fold_left (λ acc word, acc +:+ capitalize word) ws (str_lower w)
  end.

(** [str(n)] for a status code *)
Definition str_of_nat (n : nat) : string := NilEmpty.string_of_uint (Nat.to_uint n).


(** ** Stateful code

    A computation reads and writes the cache.  [N A] is code that cannot
    raise: it ends with a value.  [M A] is code that may raise: it ends
    with a value or an exception.  [None] is the resolver out of fuel.
    Every [except] clause of the program is a [continue], a [return] of a
    constant or an [append] of a constant, so a [try] statement is an [N]. *)
Definition N (A : Type) : Type :=
  gmap string json → option (A * gmap string json).
Definition M (A : Type) : Type :=
  gmap string json → option (result A * gmap string json).

Definition retN {A} (a : A) : N A := λ c, Some (a, c).
Definition bindN {A B} (m : N A) (k : A → N B) : N B :=
  λ c, match m c with
       | None => None
       | Some (a, c') => k a c'
       end.

Definition ret {A} (a : A) : M A := λ c, Some (Ok a, c).
Definition bind {A B} (m : M A) (k : A → M B) : M B :=
  λ c, match m c with
       | None => None
       | Some (Ok a, c') => k a c'
       | Some (Raise e, c') => Some (Raise e, c')
       end.
Definition lift {A} (r : result A) : M A := λ c, Some (r, c).
Definition noraise {A} (m : N A) : M A :=
  λ c, match m c with
       | None => None
       | Some (a, c') => Some (Ok a, c')
       end.
(** [try: m  except Exception as e: h e] *)
Definition try_except {A} (m : M A) (h : exn → N A) : N A :=
  λ c, match m c with
       | None => None
       | Some (Ok a, c') => Some (a, c')
       | Some (Raise e, c') => h e c'
       end.

Notation "'let*' x := m 'in' k" := (bind m (λ x, k))
  (at level 10, x name, m at level 200, k at level 200, only parsing).
Notation "'let!' x := m 'in' k" := (bindN m (λ x, k))
  (at level 10, x name, m at level 200, k at level 200, only parsing).
Notation "'let?' x := m 'in' k" := (rbind m (λ x, k))
  (at level 10, x name, m at level 200, k at level 200, only parsing).

(** [for x in l: body], [s] being what the body updates *)
Fixpoint for_each {A S} (l : list A) (body : A → S → N S) (s : S) : N S :=
  match l with
  | [] => retN s
  | x :: rest => let! s' := body x s in for_each rest body s'
  end.

(** ** The extractor instance *)

Section Extractor.

(** [self.spec], [self.base_url] ([None] or a string) and Python's [str()]
    of a value, which only enters the text of the "Failed to resolve"
    placeholder. *)
Variable spec : json.
Variable base_url : option string.
Variable py_str : json → string.
(** [str(e)] of a caught exception, in the text of the fallback servers. *)
Variable exn_str : exn → string.

(** *** Reference resolver *)

(** The three placeholder nodes. *)
Definition circular_placeholder (ref_path : string) : json :=
  JDict [(JStr "type", JStr "object");
         (JStr "description", JStr ("Circular reference to " +:+ ref_path))].

Definition unresolved_placeholder (ref_path : string) : json :=
  JDict [(JStr "type", JStr "object");
         (JStr "description", JStr ("Unresolved reference: " +:+ ref_path))].

(** [f"{v}"]: a string as it is, another value through [str()] *)
Definition format_value (v : json) : string :=
  match v with JStr s => s | _ => py_str v end.

Definition failed_placeholder (ref : json) : json :=
  JDict [(JStr "type", JStr "object");
         (JStr "description", JStr ("Failed to resolve: " +:+ format_value ref))].

(** The walk through the document, [None] when a segment is missing
    (the [ValueError] that [resolve_reference] catches itself). *)
Fixpoint navigate (current : json) (path_parts : list string) : option json :=
  match path_parts with
  | [] => Some current
  | part :: rest =>
      match current with
      | JDict d =>
          match dict_find (JStr part) d with
          | Some v => navigate v rest
          | None => None
          end
      | _ => None
      end
  end.

(** [dereference_object], over the resolver it calls.  It never raises:
    the recursive calls cannot, and a raising [resolve] is caught. *)
Section dereference.
Variable resolve :
  json → gset string → gmap string json → option (result json * gmap string json).

Fixpoint dereference_with (obj : json) (visited : gset string) (depth : nat)
    (c : gmap string json) {struct obj} : option (json * gmap string json) :=
  if Nat.ltb 50 depth then Some (obj, c) else
  match obj with
  | JDict d =>
      match dict_find (JStr "$ref") d with
      | Some ref =>
          match resolve ref visited c with
          | None => None
          | Some (Ok resolved, c') => Some (resolved, c')
          | Some (Raise _, c') => Some (failed_placeholder ref, c')
          end
      | None =>
          (fix each_item (items result : dict) (c : gmap string json) :=
             match items with
             | [] => Some (JDict result, c)
             | (key, value) :: rest =>
                 match dereference_with value visited (S depth) c with
                 | None => None
                 | Some (value', c') => each_item rest (dict_set result key value') c'
                 end
             end) d [] c
      end
  | JList l =>
      (fix each_item (items result : list json) (c : gmap string json) :=
         match items with
         | [] => Some (JList result, c)
         | item :: rest =>
             match dereference_with item visited (S depth) c with
             | None => None
             | Some (item', c') => each_item rest (result ++ [item'])%list c'
             end
         end) l [] c
  | _ => Some (obj, c)
  end.
End dereference.

(** [resolve_reference].  [fuel] is spent when the target of a reference is
    entered; every check before that point is done without fuel. *)
Fixpoint resolve_reference (fuel : nat) (ref_path : json) (visited : gset string)
    (c : gmap string json) : option (result json * gmap string json) :=
  match ref_path with
  | JStr ref =>
      if bool_decide (ref ∈ visited) then Some (Ok (circular_placeholder ref), c)
      else
        match c !! ref with
        | Some cached => Some (Ok cached, c)
        | None =>
            if negb (startswith "#/" ref) then
              Some (Raise (ValueError ("Only internal references supported: " +:+ ref)), c)
            else
              let new_visited := visited ∪ {[ref]} in
              let path_parts := str_split "/" (str_drop 2 ref) in
              match navigate spec path_parts with
              | None => Some (Ok (unresolved_placeholder ref), c)
              | Some current =>
                  match fuel with
                  | O => None
                  | S fuel' =>
                      match dereference_with (resolve_reference fuel')
                              current new_visited 0 c with
                      | None => None
                      | Some (resolved, c') => Some (Ok resolved, <[ref := resolved]> c')
                      end
                  end
              end
        end
  | JList _ | JDict _ => Some (Raise TypeError, c)
  | _ => Some (Raise AttributeError, c)
  end.

Definition dereference_fuel (fuel : nat) : json → gset string → nat →
    gmap string json → option (json * gmap string json) :=
  dereference_with (resolve_reference fuel).

(** Every key sequence that leads somewhere in a tree. *)
Fixpoint all_paths (v : json) : list (list string) :=
  match v with
  | JDict d =>
      [] :: (fix each (d : dict) : list (list string) :=
               match d with
               | [] => []
               | (JStr k, x) :: r => (map (cons k) (all_paths x) ++ each r)%list
               | _ :: r => each r
               end) d
  | _ => [[]]
  end.

(** A chain of references entered one inside the other has no repetition
    and only holds references that lead somewhere in the document, so it is
    never longer than this. *)
Definition fuel_bound : nat := S (length (all_paths spec)).

(** The calls made from outside the resolver. *)
Definition resolve_reference_top (ref_path : json) (c : gmap string json)
    : option (result json * gmap string json) :=
  resolve_reference fuel_bound ref_path ∅ c.

Definition dereference_object (obj : json) (c : gmap string json)
    : option (json * gmap string json) :=
  dereference_fuel fuel_bound obj ∅ 0 c.

(** The text of the reference that follows a key sequence, and the
    references that lead somewhere in the document. *)
Definition ref_of_path (p : list string) : string := "#/" +:+ str_join "/" p.

Definition resolvable (ref : string) : Prop :=
  startswith "#/" ref = true ∧
  is_Some (navigate spec (str_split "/" (str_drop 2 ref))).

(** The number of such references that are not on a chain. *)
Definition unvisited (visited : gset string) : nat :=
  length (filter (λ p, ref_of_path p ∉ visited) (all_paths spec)).

(** [self.dereference_object(obj)] with its default [visited] and [depth]. *)
Definition deref (obj : json) : N json := dereference_object obj.

(** *** Schema normaliser *)

Definition type_string : json := JDict [(JStr "type", JStr "string")].

(** [v == s] for a string literal [s] *)
Definition str_eq (v : json) (s : string) : bool :=
  match v with JStr t => String.eqb t s | _ => false end.

(** [v[0]] *)
Definition first_item (v : json) : result json :=
  match v with
  | JList (x :: _) => Ok x
  | JList [] => Raise IndexError
  | JStr (String a _) => Ok (JStr (String a EmptyString))
  | JStr EmptyString => Raise IndexError
  | JDict d => match dict_find (JInt 0) d with Some x => Ok x | None => Raise KeyError end
  | _ => Raise TypeError
  end.

(** Lines 293-310: the type when [schema_type] is falsy.  In the [enum]
    branch nothing is assigned when the list is empty or its first value is
    of no listed kind: [schema_type] keeps the falsy value it had. *)
Definition infer_type (d : dict) (schema_type : json) : result json :=
  if negb (truthy schema_type) then
    if dict_has d "properties" || dict_has d "additionalProperties" then Ok (JStr "object")
    else if dict_has d "items" then Ok (JStr "array")
    else if dict_has d "enum" then
      let enum_values := default (JList []) (dict_find (JStr "enum") d) in
      if truthy enum_values then
        let? first_val := first_item enum_values in
        if is_str first_val then Ok (JStr "string")
        else if is_int_or_float first_val then Ok (JStr "number")
        else if is_bool first_val then Ok (JStr "boolean")
        else Ok schema_type
      else Ok schema_type
    else Ok (JStr "string")
  else Ok schema_type.

(** [f(d[key])] when [key] is in [d]; written as a loop over the entries
    so that [f] can be the function being defined. *)
Definition get_with {A} (f : json → A) (key : string) : dict → option A :=
  fix go (d : dict) : option A :=
    match d with
    | [] => None
    | (k, v) :: r => if key_eqb k (JStr key) then Some (f v) else go r
    end.

(** [for prop_name, prop_schema in properties.items():
       json_schema['properties'][prop_name] = convert(prop_schema)] *)
Definition each_property (convert : json → json) : dict → dict → dict :=
  fix go (items acc : dict) : dict :=
    match items with
    | [] => acc
    | (prop_name, prop_schema) :: r => go r (dict_set acc prop_name (convert prop_schema))
    end.

Definition constraints : list string :=
  ["minimum"; "maximum"; "minLength"; "maxLength"; "pattern"; "default"; "example"].

Definition set_if_truthy (schema : json) (key : string) (js : dict) : dict :=
  let value := safe_get schema key JNull in
  if truthy value then dict_set js (JStr key) value else js.

Definition set_if_not_none (schema : json) (js : dict) (key : string) : dict :=
  let value := safe_get schema key JNull in
  if negb (is_none value) then dict_set js (JStr key) value else js.

(** [convert_openapi_schema_to_json_schema].  The recursive calls are on
    [schema['items']], on the values of [schema['properties']] and on
    [schema['additionalProperties']]; [convert({})], the call made when
    [items] is missing, is [type_string]. *)
Fixpoint convert_openapi_schema_to_json_schema (schema : json) : json :=
  match schema with
  | JDict d =>
      let convert := convert_openapi_schema_to_json_schema in
      let body : result json :=
        let? schema_type := infer_type d (safe_get schema "type" JNull) in
        let js := dict_set [] (JStr "type") schema_type in
        let js := set_if_truthy schema "description" js in
        let js := set_if_truthy schema "enum" js in
        let js := set_if_truthy schema "format" js in
        let? js :=
          (if str_eq schema_type "array" then
             Ok (dict_set js (JStr "items")
                   (default type_string (get_with convert "items" d)))
           else if str_eq schema_type "object" then
             let? js :=
               (let properties := safe_get schema "properties" (JDict []) in
                if truthy properties then
                  match get_with (λ v, match v with
                                       | JDict ps => Some (each_property convert ps [])
                                       | _ => None
                                       end) "properties" d with
                  | Some (Some converted) =>
                      Ok (dict_set js (JStr "properties") (JDict converted))
                  | _ => Raise AttributeError
                  end
                else Ok js) in
             let required := safe_get schema "required" (JList []) in
             let js := if truthy required then dict_set js (JStr "required") required else js in
             let additional_props := safe_get schema "additionalProperties" JNull in
             Ok (if negb (is_none additional_props) then
                   if is_dict additional_props then
                     dict_set js (JStr "additionalProperties")
                       (default type_string (get_with convert "additionalProperties" d))
                   else dict_set js (JStr "additionalProperties") additional_props
                 else js)
           else Ok js) in
        Ok (JDict (fold_left (set_if_not_none schema) constraints js))
      in
      match body with
      | Ok json_schema => json_schema
      | Raise _ => type_string
      end
  | _ => type_string
  end.

(** *** Parameters, request body, response *)

(** [d[k] = v] on a dict: a [TypeError] when [k] is unhashable *)
Definition dict_setitem (d : dict) (k v : json) : result dict :=
  if hashable k then Ok (dict_set d k v) else Raise TypeError.

(** [obj[k] = v] *)
Definition setitem (obj k v : json) : result json :=
  match obj with
  | JDict d => let? d' := dict_setitem d k v in Ok (JDict d')
  | _ => Raise TypeError
  end.

(** The body of the loop of [convert_parameters_to_json_schema]. *)
Definition convert_parameter (param : json) (st : dict * list json) : N (dict * list json) :=
  let properties := st.1 in
  let required := st.2 in
  try_except
    (let* dereferenced_param := noraise (deref param) in
     let param_name := safe_get dereferenced_param "name" (JStr "") in
     let param_schema := safe_get dereferenced_param "schema" (JDict []) in
     let param_description := safe_get dereferenced_param "description" (JStr "") in
     let param_required := safe_get dereferenced_param "required" (JBool false) in
     if truthy param_name then
       let json_schema_prop := convert_openapi_schema_to_json_schema param_schema in
       let* json_schema_prop :=
         lift (if truthy param_description
               then setitem json_schema_prop (JStr "description") param_description
               else Ok json_schema_prop) in
       let* properties := lift (dict_setitem properties param_name json_schema_prop) in
       ret (properties,
            if truthy param_required then required ++ [param_name] else required)
     else ret (properties, required))
    (λ _, retN (properties, required)).

Definition convert_parameters_to_json_schema (parameters : list json) : N json :=
  if negb (truthy (JList parameters)) then retN (JDict []) else
  try_except
    (let* st := noraise (for_each parameters convert_parameter ([], [])) in
     let properties := st.1 in
     let required := st.2 in
     if negb (truthy (JDict properties)) then ret (JDict []) else
     ret (JDict [(JStr "type", JStr "object");
                 (JStr "properties", JDict properties);
                 (JStr "required", JList required)]))
    (λ _, retN (JDict [])).

(** [needle in hay] on strings *)
Fixpoint str_contains (needle hay : string) : bool :=
  startswith needle hay ||
  match hay with
  | EmptyString => false
  | String _ r => str_contains needle r
  end.

(** [s in v] for a string [s] *)
Definition py_in (s : string) (v : json) : result bool :=
  match v with
  | JDict d => Ok (dict_has d s)
  | JList l => Ok (existsb (λ x, str_eq x s) l)
  | JStr t => Ok (str_contains s t)
  | _ => Raise TypeError
  end.

(** [v[s]] for a string [s] *)
Definition getitem (v : json) (s : string) : result json :=
  match v with
  | JDict d => match dict_find (JStr s) d with Some x => Ok x | None => Raise KeyError end
  | _ => Raise TypeError
  end.

(** [for media_type in media_types: if media_type in content: ...; break],
    from [schema = {}] *)
Fixpoint preferred_schema (media_types : list string) (content : json) : result json :=
  match media_types with
  | [] => Ok (JDict [])
  | media_type :: rest =>
      let? present := py_in media_type content in
      if present then
        let? media_info := getitem content media_type in
        Ok (safe_get media_info "schema" (JDict []))
      else preferred_schema rest content
  end.

(** [content[list(content.keys())[0]]] and its schema *)
Definition first_available (content : json) : result json :=
  match content with
  | JDict ((_, media_info) :: _) => Ok (safe_get media_info "schema" (JDict []))
  | JDict [] => Raise IndexError
  | _ => Raise AttributeError
  end.

(** The common end of [convert_request_body_to_json_schema] and
    [convert_response_to_json_schema]: from [content] to the result. *)
Definition content_schema (media_types : list string) (content : json) : result json :=
  let? schema := preferred_schema media_types content in
  let? schema := if negb (truthy schema) && truthy content
                 then first_available content else Ok schema in
  if negb (truthy schema) then Ok (JDict [])
  else Ok (convert_openapi_schema_to_json_schema schema).

Definition request_media_types : list string :=
  ["application/json"; "application/x-www-form-urlencoded"; "multipart/form-data"].
Definition response_media_types : list string :=
  ["application/json"; "text/plain"; "application/xml"].

Definition convert_request_body_to_json_schema (request_body : json) : N json :=
  if negb (truthy request_body) then retN (JDict []) else
  try_except
    (let* dereferenced_body := noraise (deref request_body) in
     let content := safe_get dereferenced_body "content" (JDict []) in
     lift (content_schema request_media_types content))
    (λ _, retN (JDict [])).

(** [for status_code in range(200, 300): ...; break], from
    [response_data = None] *)
Fixpoint first_response (codes : list nat) (responses : json) : result json :=
  match codes with
  | [] => Ok JNull
  | status_code :: rest =>
      let status_str := str_of_nat status_code in
      let? present := py_in status_str responses in
      if present then getitem responses status_str
      else first_response rest responses
  end.

Definition convert_response_to_json_schema (responses : json) : N json :=
  if negb (truthy responses) then retN (JDict []) else
  try_except
    (let* dereferenced_responses := noraise (deref responses) in
     lift (let? response_data := first_response (seq 200 100) dereferenced_responses in
           if negb (truthy response_data) then Ok (JDict []) else
           let content := safe_get response_data "content" (JDict []) in
           content_schema response_media_types content))
    (λ _, retN (JDict [])).

(** *** Servers *)

Definition base_url_set : option string :=
  match base_url with
  | Some b => if truthy (JStr b) then Some b else None
  | None => None
  end.

(** The body of the formatting loop of [extract_servers]. *)
Definition format_server (server : json) (formatted_servers : list dict) : N (list dict) :=
  try_except
    (let* dereferenced_server := noraise (deref server) in
     if is_dict dereferenced_server then
       ret (formatted_servers ++
              [[(JStr "url", safe_get dereferenced_server "url" (JStr ""));
                (JStr "description", safe_get dereferenced_server "description" (JStr ""));
                (JStr "variables", safe_get dereferenced_server "variables" (JDict []))]])
     else ret formatted_servers)
    (λ e, retN (formatted_servers ++
                  [[(JStr "url", JStr "");
                    (JStr "description", JStr ("Error processing server: " +:+ exn_str e));
                    (JStr "variables", JDict [])]])).

Definition no_server : dict :=
  [(JStr "url", JStr "");
   (JStr "description", JStr "No server information available");
   (JStr "variables", JDict [])].

(** [server['url'] = self.base_url; server['description'] = ...] *)
Definition override_server (b : string) (server : dict) : dict :=
  dict_set (dict_set server (JStr "url") (JStr b))
    (JStr "description") (JStr ("Base URL override: " +:+ b)).

Definition extract_servers (path_item operation : json) : N (list dict) :=
  try_except
    (let servers := [] in
     let root_servers := safe_get spec "servers" (JList []) in
     let servers := match root_servers with JList l => servers ++ l | _ => servers end in
     let servers :=
       if truthy path_item && is_dict path_item then
         let path_servers := safe_get path_item "servers" (JList []) in
         if is_list path_servers && truthy path_servers
         then match path_servers with JList l => l | _ => servers end
         else servers
       else servers in
     let servers :=
       if truthy operation && is_dict operation then
         let operation_servers := safe_get operation "servers" (JList []) in
         if is_list operation_servers && truthy operation_servers
         then match operation_servers with JList l => l | _ => servers end
         else servers
       else servers in
     let* formatted_servers := noraise (for_each servers format_server []) in
     let formatted_servers :=
       if negb (truthy (JList (map JDict formatted_servers))) then [no_server]
       else formatted_servers in
     let formatted_servers :=
       match base_url_set with
       | Some b => map (override_server b) formatted_servers
       | None => formatted_servers
       end in
     ret formatted_servers)
    (λ e, retN [[(JStr "url", JStr (default "" base_url_set));
                 (JStr "description", JStr ("Error extracting servers: " +:+ exn_str e));
                 (JStr "variables", JDict [])]]).

(** *** Operations *)

Definition methods : list string :=
  ["get"; "post"; "put"; "delete"; "patch"; "head"; "options"; "trace"].

(** Lines 650-657: the parameters of the path item, then those of the
    operation. *)
Definition merge_parameters (path_parameters operation_parameters : json) : list json :=
  let all_parameters := [] in
  let all_parameters :=
    match path_parameters with JList l => all_parameters ++ l | _ => all_parameters end in
  match operation_parameters with JList l => all_parameters ++ l | _ => all_parameters end.

(** [endpoint.replace('/', '_').replace('{', '').replace('}', '')] *)
Definition path_slug (endpoint : string) : string :=
  str_replace "}" "" (str_replace "{" "" (str_replace "/" "_" endpoint)).

(** [servers[0].get('url', '').rstrip('/')], [''] without a server *)
Definition first_server_url (servers : list dict) : result string :=
  match servers with
  | server :: _ =>
      match default (JStr "") (dict_find (JStr "url") server) with
      | JStr url => Ok (str_rstrip "/" url)
      | _ => Raise AttributeError
      end
  | [] => Ok ""
  end.

(** Lines 650-702: what the inner [try] does for one operation, up to the
    pair it appends. *)
Definition build_operation (endpoint dereferenced_path_item path_parameters : json)
    (method : string) (operation : json) : M (json * json) :=
  let operation_parameters := safe_get operation "parameters" (JList []) in
  let all_parameters := merge_parameters path_parameters operation_parameters in
  let* endpoint_str :=
    lift (match endpoint with JStr e => Ok e | _ => Raise AttributeError end) in
  let operation_id :=
    safe_get operation "operationId" (JStr (method +:+ "_" +:+ path_slug endpoint_str)) in
  let* operation_id :=
    lift (match operation_id with
          | JStr s => Ok (if str_exists (λ a, negb (is_alnum a)) s
                          then to_camel_case s else s)
          | _ => Raise TypeError
          end) in
  let description :=
    safe_get operation "description" (safe_get operation "summary" (JStr "")) in
  let* servers := noraise (extract_servers dereferenced_path_item operation) in
  let* base := lift (first_server_url servers) in
  let full_url := if truthy (JStr base) then base +:+ endpoint_str else endpoint_str in
  let request_body := safe_get operation "requestBody" (JDict []) in
  let responses := safe_get operation "responses" (JDict []) in
  let* parameters := noraise (convert_parameters_to_json_schema all_parameters) in
  let* body := noraise (convert_request_body_to_json_schema request_body) in
  let* response := noraise (convert_response_to_json_schema responses) in
  let path_info :=
    JDict [(JStr "name", JStr operation_id);
           (JStr "description", description);
           (JStr "method", JStr (str_upper method));
           (JStr "endpoint", JStr full_url);
           (JStr "headers",
            JList [JDict [(JStr "name", JStr "Authorization");
                          (JStr "required", JBool true)]]);
           (JStr "parameters", parameters);
           (JStr "body", body);
           (JStr "response", response)] in
  let path_tags := safe_get operation "tags" (JList []) in
  let path_tags := if negb (truthy path_tags) then JList [JStr "untagged"] else path_tags in
  ret (path_info, path_tags).

(** The body of the loop over the methods. *)
Definition each_method (endpoint dereferenced_path_item path_parameters : json)
    (method : string) (extracted_paths : list (json * json)) : N (list (json * json)) :=
  if match dereferenced_path_item with JDict d => dict_has d method | _ => false end then
    try_except
      (let* operation := lift (getitem dereferenced_path_item method) in
       if negb (is_dict operation) then ret extracted_paths else
       let* unit := build_operation endpoint dereferenced_path_item path_parameters
                      method operation in
       ret (extracted_paths ++ [unit]))
      (λ _, retN extracted_paths)
  else retN extracted_paths.

(** The body of the loop over the paths. *)
Definition each_path (item : json * json) (extracted_paths : list (json * json))
    : N (list (json * json)) :=
  let endpoint := item.1 in
  let path_item := item.2 in
  try_except
    (noraise
       (let! dereferenced_path_item := deref path_item in
        if negb (is_dict dereferenced_path_item) then retN extracted_paths else
        let path_parameters := safe_get dereferenced_path_item "parameters" (JList []) in
        for_each methods (each_method endpoint dereferenced_path_item path_parameters)
          extracted_paths))
    (λ _, retN extracted_paths).

Definition extract_paths : N (list (json * json)) :=
  try_except
    (let paths := safe_get spec "paths" (JDict []) in
     match paths with
     | JDict items => noraise (for_each items each_path [])
     | _ => ret []
     end)
    (λ _, retN []).

(** *** The descriptive extractors

    [extract_parameters], [extract_request_body], [extract_responses] and
    [extract_headers] describe a part of an operation without converting
    it.  [extract_paths] does not call them. *)

(** [f'param_{i}'] *)
Definition param_default_name (i : nat) : string := "param_" +:+ str_of_nat i.

(** The body of the loop of [extract_parameters], on [(i, param)]. *)
Definition extract_parameter (ip : nat * json) (param_list : list json) : N (list json) :=
  let i := ip.1 in
  let param := ip.2 in
  try_except
    (let* dereferenced_param := noraise (deref param) in
     let param_info :=
       JDict [(JStr "name",
               safe_get dereferenced_param "name" (JStr (param_default_name i)));
              (JStr "in", safe_get dereferenced_param "in" (JStr "query"));
              (JStr "description", safe_get dereferenced_param "description" (JStr ""));
              (JStr "required", safe_get dereferenced_param "required" (JBool false));
              (JStr "schema", safe_get dereferenced_param "schema" (JDict []));
              (JStr "style", safe_get dereferenced_param "style" (JStr ""));
              (JStr "explode", safe_get dereferenced_param "explode" (JBool false))] in
     ret (param_list ++ [param_info]))
    (λ e, retN (param_list ++
                  [JDict [(JStr "name", JStr (param_default_name i));
                          (JStr "in", JStr "query");
                          (JStr "description",
                           JStr ("Error processing parameter: " +:+ exn_str e));
                          (JStr "required", JBool false);
                          (JStr "schema", JDict []);
                          (JStr "style", JStr "");
                          (JStr "explode", JBool false)]])).

(** [enumerate(l)] *)
Definition enumerate {A} (l : list A) : list (nat * A) := zip (seq 0 (length l)) l.

Definition extract_parameters (parameters : list json) : N (list json) :=
  if negb (truthy (JList parameters)) then retN [] else
  for_each (enumerate parameters) extract_parameter [].

(** The loop over [content.items()] of [extract_request_body] and of
    [extract_responses]: the media types whose info is a map. *)
Definition media_entry (acc : dict) (item : json * json) : dict :=
  let media_type := item.1 in
  let media_info := item.2 in
  if is_dict media_info then
    dict_set acc media_type
      (JDict [(JStr "schema", safe_get media_info "schema" (JDict []));
              (JStr "examples", safe_get media_info "examples" (JDict []));
              (JStr "example", safe_get media_info "example" JNull)])
  else acc.

Definition media_entries (content : json) : dict :=
  match content with
  | JDict items => fold_left media_entry items []
  | _ => []
  end.

Definition extract_request_body (request_body : json) : N json :=
  if negb (truthy request_body) then retN (JDict []) else
  try_except
    (let* dereferenced_body := noraise (deref request_body) in
     let content := safe_get dereferenced_body "content" (JDict []) in
     ret (JDict [(JStr "description", safe_get dereferenced_body "description" (JStr ""));
                 (JStr "required", safe_get dereferenced_body "required" (JBool false));
                 (JStr "content", JDict (media_entries content))]))
    (λ e, retN (JDict [(JStr "description",
                        JStr ("Error processing request body: " +:+ exn_str e));
                       (JStr "required", JBool false);
                       (JStr "content", JDict [])])).

(** The body of the loop over [dereferenced_responses.items()]. *)
Definition response_entry (acc : dict) (item : json * json) : dict :=
  let status_code := item.1 in
  let response_data := item.2 in
  if is_dict response_data then
    dict_set acc status_code
      (JDict [(JStr "description", safe_get response_data "description" (JStr ""));
              (JStr "headers", safe_get response_data "headers" (JDict []));
              (JStr "content",
               JDict (media_entries (safe_get response_data "content" (JDict []))))])
  else acc.

Definition extract_responses (responses : json) : N json :=
  if negb (truthy responses) then retN (JDict []) else
  try_except
    (let* dereferenced_responses := noraise (deref responses) in
     ret (JDict (match dereferenced_responses with
                 | JDict items => fold_left response_entry items []
                 | _ => []
                 end)))
    (λ e, retN (JDict [(JStr "default",
                        JDict [(JStr "description",
                                JStr ("Error processing responses: " +:+ exn_str e));
                               (JStr "headers", JDict []);
                               (JStr "content", JDict [])])])).

(** The body of the loop of [extract_headers]; its [except] only prints. *)
Definition extract_header (param : json) (headers : list json) : N (list json) :=
  try_except
    (let* dereferenced_param := noraise (deref param) in
     if str_eq (safe_get dereferenced_param "in" JNull) "header" then
       ret (headers ++
              [JDict [(JStr "name", safe_get dereferenced_param "name" (JStr ""));
                      (JStr "description",
                       safe_get dereferenced_param "description" (JStr ""));
                      (JStr "required",
                       safe_get dereferenced_param "required" (JBool false));
                      (JStr "schema", safe_get dereferenced_param "schema" (JDict []))]])
     else ret headers)
    (λ _, retN headers).

Definition extract_headers (operation : json) : N (list json) :=
  try_except
    (let parameters := safe_get operation "parameters" (JList []) in
     match parameters with
     | JList l => noraise (for_each l extract_header [])
     | _ => ret []
     end)
    (λ _, retN []).

End Extractor.

(** ** Definitions used in the statements *)

Section Statements.
Variable spec : json.
Variable base_url : option string.
Variable py_str : json → string.
Variable exn_str : exn → string.


(** The function as the source reads, with the recursive calls on the
    values that [safe_get] returns. *)
Definition convert_body (d : dict) : result json :=
  let convert := convert_openapi_schema_to_json_schema in
  let schema := JDict d in
  let? schema_type := infer_type d (safe_get schema "type" JNull) in
  let js := dict_set [] (JStr "type") schema_type in
  let js := set_if_truthy schema "description" js in
  let js := set_if_truthy schema "enum" js in
  let js := set_if_truthy schema "format" js in
  let? js :=
    (if str_eq schema_type "array" then
       let items := safe_get schema "items" (JDict []) in
       Ok (dict_set js (JStr "items") (convert items))
     else if str_eq schema_type "object" then
       let? js :=
         (let properties := safe_get schema "properties" (JDict []) in
          if truthy properties then
            match properties with
            | JDict ps => Ok (dict_set js (JStr "properties")
                                (JDict (each_property convert ps [])))
            | _ => Raise AttributeError
            end
          else Ok js) in
       let required := safe_get schema "required" (JList []) in
       let js := if truthy required then dict_set js (JStr "required") required else js in
       let additional_props := safe_get schema "additionalProperties" JNull in
       Ok (if negb (is_none additional_props) then
             if is_dict additional_props then
               dict_set js (JStr "additionalProperties") (convert additional_props)
             else dict_set js (JStr "additionalProperties") additional_props
           else js)
     else Ok js) in
  Ok (JDict (fold_left (set_if_not_none schema) constraints js)).

(** The [type] of a converted node. *)
Definition schema_type_of (v : json) : option json := field v "type".

(** A computation that gives an answer on every cache. *)
Definition returns {A} (m : gmap string json → option A) : Prop :=
  ∀ c, is_Some (m c).

(** The parameters as the loop sees them: dereferenced one after the
    other. *)
Fixpoint deref_each (l : list json) : N (list json) :=
  match l with
  | [] => retN []
  | x :: rest =>
      let! v := deref spec py_str x in
      let! vs := deref_each rest in
      retN (v :: vs)
  end.

(** The entry of the property map for a dereferenced parameter. *)
Definition param_property (dp : json) : json :=
  let prop := convert_openapi_schema_to_json_schema (safe_get dp "schema" (JDict [])) in
  let description := safe_get dp "description" (JStr "") in
  if truthy description then
    match prop with
    | JDict js => JDict (dict_set js (JStr "description") description)
    | _ => prop
    end
  else prop.

Definition param_name (dp : json) : json := safe_get dp "name" (JStr "").

(** A parameter is entered when its name is truthy and hashable. *)
Definition step_parameter (st : dict * list json) (dp : json) : dict * list json :=
  if truthy (param_name dp) && hashable (param_name dp) then
    (dict_set st.1 (param_name dp) (param_property dp),
     if truthy (safe_get dp "required" (JBool false))
     then st.2 ++ [param_name dp] else st.2)
  else st.

Definition parameters_schema (st : dict * list json) : json :=
  match st.1 with
  | [] => JDict []
  | _ => JDict [(JStr "type", JStr "object");
                (JStr "properties", JDict st.1);
                (JStr "required", JList st.2)]
  end.

(** The server list declared at a level, [[]] when there is none. *)
Definition servers_at (obj : json) : list json :=
  match safe_get obj "servers" (JList []) with JList l => l | _ => [] end.

(** The precedence as the specification words it: start from the root
    list, a non-empty path list replaces it, a non-empty operation list
    replaces it again. *)
Definition working_servers (root path operation : list json) : list json :=
  let working := root in
  let working := match path with [] => working | _ => path end in
  match operation with [] => working | _ => operation end.

(** The descriptor of a dereferenced server; a node that is not a map
    gives none. *)
Definition server_descriptor (ds : json) : option dict :=
  if is_dict ds then
    Some [(JStr "url", safe_get ds "url" (JStr ""));
          (JStr "description", safe_get ds "description" (JStr ""));
          (JStr "variables", safe_get ds "variables" (JDict []))]
  else None.

(** The placeholder stands for an empty list. *)
Definition or_placeholder (formatted : list dict) : list dict :=
  match formatted with [] => [no_server] | _ => formatted end.

(** The shape of the [parameters] field. *)
Definition parameters_shape (p : json) : Prop :=
  p = JDict []
  ∨ ∃ P R, P ≠ [] ∧ p = JDict [(JStr "type", JStr "object");
                               (JStr "properties", JDict P);
                               (JStr "required", JList R)].

(** [n] is the first status code from 200 to 299 that is a key of [d]. *)
Definition first_2xx (d : dict) (n : nat) (response_data : json) : Prop :=
  200 ≤ n ≤ 299
  ∧ dict_find (JStr (str_of_nat n)) d = Some response_data
  ∧ ∀ m, 200 ≤ m < n → dict_find (JStr (str_of_nat m)) d = None.







(** What [re.search(r'[^a-zA-Z0-9]', s)] does not find: a string of ASCII
    letters and digits only. *)
Definition all_alnum (s : string) : Prop :=
  str_exists (λ a, negb (is_alnum a)) s = false.

(** Lines 662-664: [to_camel_case] applied to a name that has another
    character than a letter or a digit. *)
Definition normalize_name (s : string) : string :=
  if str_exists (λ a, negb (is_alnum a)) s then to_camel_case s else s.

(** [method.upper()] for the eight methods. *)
Definition upper_methods : list string :=
  ["GET"; "POST"; "PUT"; "DELETE"; "PATCH"; "HEAD"; "OPTIONS"; "TRACE"].

(** The keys of a dict are pairwise different, as in any Python dict. *)
Fixpoint distinct_keys (d : dict) : bool :=
  match d with
  | [] => true
  | (k, _) :: r => negb (existsb (λ kv, key_eqb k kv.1) r) && distinct_keys r
  end.

(** A tree without [$ref]: no dict has the key, and every dict has
    different keys. *)
Fixpoint plain (v : json) : bool :=
  match v with
  | JList l => forallb plain l
  | JDict d =>
      distinct_keys d && negb (dict_has d "$ref") && forallb (λ kv, plain kv.2) d
  | _ => true
  end.

(** A parameter that the conversion enters, and one that it also lists as
    required. *)
Definition entered (dp : json) : bool :=
  truthy (param_name dp) && hashable (param_name dp).

Definition entered_required (dp : json) : bool :=
  entered dp && truthy (safe_get dp "required" (JBool false)).

(** The three keys of a server descriptor. *)
Definition server_shape (server : dict) : Prop :=
  ∃ url description variables,
    server = [(JStr "url", url); (JStr "description", description);
              (JStr "variables", variables)].

(** The eight keys of an endpoint descriptor, a fixed header, a method
    among the eight. *)
Definition descriptor_shape (info : json) : Prop :=
  ∃ name description method endpoint parameters body response,
    In method upper_methods
    ∧ info = JDict [(JStr "name", JStr name);
                    (JStr "description", description);
                    (JStr "method", JStr method);
                    (JStr "endpoint", JStr endpoint);
                    (JStr "headers",
                     JList [JDict [(JStr "name", JStr "Authorization");
                                   (JStr "required", JBool true)]]);
                    (JStr "parameters", parameters);
                    (JStr "body", body);
                    (JStr "response", response)].

(** The path items of the document. *)
Definition path_items : dict :=
  match safe_get spec "paths" (JDict []) with JDict items => items | _ => [] end.

(** The description of a media type, and the media types of a content map
    that are described: those whose info is a map. *)
Definition media_description (media_info : json) : json :=
  JDict [(JStr "schema", safe_get media_info "schema" (JDict []));
         (JStr "examples", safe_get media_info "examples" (JDict []));
         (JStr "example", safe_get media_info "example" JNull)].

Definition described_media (items : dict) : dict :=
  omap (λ item : json * json,
          if is_dict item.2 then Some (item.1, media_description item.2) else None)
    items.

Definition response_description (response_data : json) : json :=
  JDict [(JStr "description", safe_get response_data "description" (JStr ""));
         (JStr "headers", safe_get response_data "headers" (JDict []));
         (JStr "content",
          JDict (media_entries (safe_get response_data "content" (JDict []))))].

Definition described_responses (items : dict) : dict :=
  omap (λ item : json * json,
          if is_dict item.2 then Some (item.1, response_description item.2) else None)
    items.

(** The description of the parameter at index [i]. *)
Definition parameter_description (i : nat) (dp : json) : json :=
  JDict [(JStr "name", safe_get dp "name" (JStr (param_default_name i)));
         (JStr "in", safe_get dp "in" (JStr "query"));
         (JStr "description", safe_get dp "description" (JStr ""));
         (JStr "required", safe_get dp "required" (JBool false));
         (JStr "schema", safe_get dp "schema" (JDict []));
         (JStr "style", safe_get dp "style" (JStr ""));
         (JStr "explode", safe_get dp "explode" (JBool false))].

(** The description of a header parameter. *)
Definition header_description (dp : json) : json :=
  JDict [(JStr "name", safe_get dp "name" (JStr ""));
         (JStr "description", safe_get dp "description" (JStr ""));
         (JStr "required", safe_get dp "required" (JBool false));
         (JStr "schema", safe_get dp "schema" (JDict []))].

Definition is_header (dp : json) : bool := str_eq (safe_get dp "in" JNull) "header".

(** The cache after a call holds the cache before it, and the keys it
    gained are not on the chain. *)
Definition grows_outside (visited : gset string) (c c' : gmap string json) : Prop :=
  c ⊆ c' ∧ ∀ k, c !! k = None → is_Some (c' !! k) → k ∉ visited.

(** The stages of [convert_body]: the keys set for every node, then the
    keys set for an array or an object. *)
Definition base_keys (d : dict) (schema_type : json) : dict :=
  let schema := JDict d in
  set_if_truthy schema "format"
    (set_if_truthy schema "enum"
       (set_if_truthy schema "description" (dict_set [] (JStr "type") schema_type))).

Definition object_properties (d : dict) (js : dict) : result dict :=
  let convert := convert_openapi_schema_to_json_schema in
  let properties := safe_get (JDict d) "properties" (JDict []) in
  if truthy properties then
    match properties with
    | JDict ps => Ok (dict_set js (JStr "properties") (JDict (each_property convert ps [])))
    | _ => Raise AttributeError
    end
  else Ok js.

Definition object_rest (d : dict) (js : dict) : dict :=
  let convert := convert_openapi_schema_to_json_schema in
  let schema := JDict d in
  let required := safe_get schema "required" (JList []) in
  let js := if truthy required then dict_set js (JStr "required") required else js in
  let additional_props := safe_get schema "additionalProperties" JNull in
  if negb (is_none additional_props) then
    if is_dict additional_props then
      dict_set js (JStr "additionalProperties") (convert additional_props)
    else dict_set js (JStr "additionalProperties") additional_props
  else js.

Definition typed_keys (d : dict) (schema_type : json) (js : dict) : result dict :=
  let convert := convert_openapi_schema_to_json_schema in
  if str_eq schema_type "array" then
    Ok (dict_set js (JStr "items") (convert (safe_get (JDict d) "items" (JDict []))))
  else if str_eq schema_type "object" then
    let? js := object_properties d js in
    Ok (object_rest d js)
  else Ok js.

(** The entries of a property map, converted one by one. *)
Definition converted_properties (ps : dict) : dict :=
  map (λ kv : json * json, (kv.1, convert_openapi_schema_to_json_schema kv.2)) ps.

(** The keys that the array and object stage may set. *)
Definition typed_key (k : string) : bool :=
  bool_decide (k ∈ ["items"; "properties"; "required"; "additionalProperties"]).

End Statements.

Module Examples.
Definition no_str (_ : json) : string := "?".



Definition no_exn (_ : exn) : string := "?".

(** A map with string keys. *)
Definition obj (l : list (string * json)) : json :=
  JDict (map (λ kv, (JStr kv.1, kv.2)) l).

Definition id_of_path : json :=
  obj [("name", JStr "id"); ("in", JStr "path");
       ("schema", obj [("type", JStr "integer")])].
Definition id_of_operation : json :=
  obj [("name", JStr "id"); ("in", JStr "path"); ("required", JBool true);
       ("schema", obj [("type", JStr "string")])].
Definition limit : json :=
  obj [("name", JStr "limit"); ("schema", obj [("enum", JList [JInt 1; JInt 2])])].

Definition responses_404_201 : json :=
  obj [("404", obj [("description", JStr "not found")]);
       ("201", obj [("content",
                     obj [("text/plain", obj [("schema", obj [("type", JStr "string")])])])])].

Definition server_R : json := obj [("url", JStr "https://api.example.com")].
Definition server_O : json :=
  obj [("url", JStr "https://op.example.com/"); ("description", JStr "O");
       ("variables", obj [])].

Definition get_user : json :=
  obj [("servers", JList [server_O]);
       ("parameters", JList [id_of_operation; obj [("$ref", JStr "#/components/limit")]]);
       ("responses", responses_404_201)].
Definition post_user : json := obj [("operationId", JInt 5)].
Definition put_user : json :=
  obj [("operationId", JStr "put-user"); ("tags", JList [JStr "users"])].

Definition user_item : json :=
  obj [("parameters", JList [id_of_path]);
       ("servers", JList []);
       ("get", get_user); ("post", post_user); ("put", put_user)].

(** One path with three operations; the second one cannot be built, its
    [operationId] is not a string. *)
Definition api : json :=
  obj [("servers", JList [server_R]);
       ("paths", obj [("/v1/users/{id}", user_item)]);
       ("components", obj [("limit", limit)])].

(** [user_item] as [extract_paths] sees it, dereferenced. *)
Definition user_item_deref : json :=
  default JNull (fst <$> dereference_object api no_str user_item ∅).

Definition built_put : option (result (json * json) * gmap string json) :=
  build_operation api None no_str no_exn (JStr "/v1/users/{id}") user_item_deref
    (JList [id_of_path]) "put" put_user ∅.
Definition put_info : json :=
  match built_put with Some (Ok unit, _) => unit.1 | _ => JNull end.

Definition extracted : list (json * json) :=
  match extract_paths api None no_str no_exn ∅ with Some (l, _) => l | None => [] end.
Definition extracted_cache : gmap string json :=
  match extract_paths api None no_str no_exn ∅ with Some (_, c) => c | None => ∅ end.
(** A tree without references. *)
Definition plain_item : json :=
  obj [("get", obj [("parameters", JList [id_of_path]);
                    ("responses", responses_404_201)])].


Definition built_get : option (result (json * json) * gmap string json) :=
  build_operation api None no_str no_exn (JStr "/v1/users/{id}") user_item_deref
    (JList [id_of_path]) "get" get_user ∅.
Definition get_info : json :=
  match built_get with Some (Ok unit, _) => unit.1 | _ => JNull end.
Definition get_tags : json :=
  match built_get with Some (Ok unit, _) => unit.2 | _ => JNull end.
Definition get_cache : gmap string json :=
  match built_get with Some (_, c) => c | _ => ∅ end.

(** The cache after the reference to [limit] was resolved, and after
    [get_user] was dereferenced from there. *)
Definition limit_ref : string := "#/components/limit".
Definition limit_cache : gmap string json :=
  match resolve_reference_top api no_str (JStr limit_ref) ∅ with
  | Some (_, c) => c
  | None => ∅
  end.
Definition get_user_cache : gmap string json :=
  match dereference_object api no_str get_user limit_cache with
  | Some (_, c) => c
  | None => ∅
  end.


(** Schemas. *)
Definition bounded_integer : dict :=
  [(JStr "type", JStr "integer"); (JStr "description", JStr "a count");
   (JStr "minimum", JInt 1)].
Definition untyped_list : dict := [(JStr "type", JStr "array")].
Definition user_properties : dict :=
  [(JStr "id", obj [("type", JStr "integer")]); (JStr "tag", obj [("enum", JList [JInt 1])])].
Definition user_schema : dict :=
  [(JStr "type", JStr "object"); (JStr "properties", JDict user_properties);
   (JStr "required", JList [JStr "id"])].
Definition listed_properties : dict := [(JStr "properties", JList [JInt 1])].

(** Parameters: one without a name, one in the header. *)
Definition nameless : json := obj [("in", JStr "query")].
Definition x_request_id : json :=
  obj [("name", JStr "X-Request-Id"); ("in", JStr "header"); ("required", JBool true)].
Definition traced : json := obj [("parameters", JList [limit; x_request_id])].

(** A body that is only text/csv, with a media type whose info is not a
    map. *)
Definition csv_media : json := obj [("schema", obj [("type", JStr "string")])].
Definition csv_content : dict := [(JStr "text/csv", csv_media); (JStr "text/plain", JNull)].
Definition csv_body : json :=
  obj [("description", JStr "rows"); ("content", JDict csv_content)].

(** Responses whose first 2xx code has no content. *)
Definition no_content : json := obj [("description", JStr "done")].
Definition created : json :=
  obj [("content", obj [("application/json", obj [("schema", obj [("type", JStr "object")])])])].
Definition responses_200_201 : dict :=
  [(JStr "200", no_content); (JStr "201", created); (JStr "x-note", JStr "n")].
End Examples.

(** ** Properties of the resolver *)

Section ResolverFacts.
Variable spec : json.
Variable py_str : json → string.

Lemma key_eqb_str k s : key_eqb k (JStr s) = true → k = JStr s.
Proof.
  destruct k as [| b | z | f | t | l | d]; simpl; try discriminate.
  - destruct f; discriminate.
  - intros H. apply String.eqb_eq in H. by subst.
Qed.

(** [dereference_object] returns whenever the resolver it calls does. *)
Lemma dereference_with_total resolve visited :
  (∀ r c, is_Some (resolve r visited c)) →
  ∀ obj depth c, is_Some (dereference_with py_str resolve obj visited depth c).
Proof.
  intros Hres obj. induction obj as [| | | | | l IH | d IH] using json_tree_ind;
    intros depth c; simpl; destruct (Nat.ltb 50 depth); try by eexists.
  - match goal with |- is_Some (?f l [] c) =>
      cut (∀ acc c, is_Some (f l acc c)); [intros H; apply H|] end.
    clear c. induction IH as [| x r Hx _ IHr]; intros acc c; [by eexists|].
    destruct (Hx (S depth) c) as [[v c'] ->]. apply IHr.
  - destruct (dict_find (JStr "$ref") d) as [ref|].
    + destruct (Hres ref c) as [[[v | e] c'] ->]; by eexists.
    + match goal with |- is_Some (?f d [] c) =>
        cut (∀ acc c, is_Some (f d acc c)); [intros H; apply H|] end.
      clear c. induction IH as [| [k x] r Hx _ IHr]; intros acc c; [by eexists|].
      simpl in Hx. destruct (Hx (S depth) c) as [[v c'] ->]. apply IHr.
Qed.

(** A property of the cache that the resolver establishes at every call and
    that composes (a preorder) is established by [dereference_object]. *)
Lemma dereference_with_cache_rel (R : relation (gmap string json)) resolve visited :
  Reflexive R → Transitive R →
  (∀ r c out c', resolve r visited c = Some (out, c') → R c c') →
  ∀ obj depth c v c',
    dereference_with py_str resolve obj visited depth c = Some (v, c') → R c c'.
Proof.
  intros Hrefl Htrans Hres obj.
  induction obj as [| | | | | l IH | d IH] using json_tree_ind;
    intros depth c v c'; simpl; destruct (Nat.ltb 50 depth);
    try (intros [= _ <-]; reflexivity).
  - match goal with |- ?f l [] c = _ → _ =>
      cut (∀ acc c, f l acc c = Some (v, c') → R c c'); [intros H; apply H|] end.
    clear c. induction IH as [| x r Hx _ IHr]; intros acc c.
    + intros [= _ <-]. reflexivity.
    + destruct (dereference_with py_str resolve x visited (S depth) c)
        as [[x' c1]|] eqn:E; [|discriminate].
      intros H. etrans; [eapply Hx, E | eapply IHr, H].
  - destruct (dict_find (JStr "$ref") d) as [ref|].
    + destruct (resolve ref visited c) as [[[x | e] c1]|] eqn:E; [| |discriminate];
        intros [= _ <-]; eapply Hres, E.
    + match goal with |- ?f d [] c = _ → _ =>
        cut (∀ acc c, f d acc c = Some (v, c') → R c c'); [intros H; apply H|] end.
      clear c. induction IH as [| [k x] r Hx _ IHr]; intros acc c.
      * intros [= _ <-]. reflexivity.
      * simpl in Hx.
        destruct (dereference_with py_str resolve x visited (S depth) c)
          as [[x' c1]|] eqn:E; [|discriminate].
        intros H. etrans; [eapply Hx, E | eapply IHr, H].
Qed.



Lemma str_split_nonempty sep s : str_split sep s ≠ [].
Proof. destruct s as [| a r]; simpl; [done|]. repeat case_match; done. Qed.

Lemma str_join_split sep s : str_join (String sep EmptyString) (str_split sep s) = s.
Proof.
  induction s as [| a r IH]; simpl; [done|].
  destruct (Ascii.eqb a sep) eqn:E.
  - apply Ascii.eqb_eq in E. subst a.
    pose proof (str_split_nonempty sep r) as Hne.
    simpl. destruct (str_split sep r) as [| w ws]; [done|].
    simpl in *. by rewrite IH.
  - destruct (str_split sep r) as [| w ws]; simpl in *; [by subst|].
    destruct ws; simpl in *; by rewrite <- IH.
Qed.

Lemma startswith_drop ref : startswith "#/" ref = true → ref = "#/" +:+ str_drop 2 ref.
Proof.
  destruct ref as [| a [| b r]]; cbn [startswith str_drop]; try done.
  - by rewrite andb_false_r.
  - rewrite andb_true_r. intros [Ha Hb]%andb_prop.
    apply Ascii.eqb_eq in Ha, Hb. by subst.
Qed.

Lemma navigate_all_paths v : ∀ parts x, navigate v parts = Some x → parts ∈ all_paths v.
Proof.
  induction v as [| | | | | l IH | d IH] using json_tree_ind;
    intros [| p rest] x; simpl; try done; try (intros _; by left).
  destruct (dict_find (JStr p) d) as [w|] eqn:E; [|done]. intros Hnav.
  right. induction IH as [| [k y] r Hy _ IHr]; simpl in *; [done|].
  destruct (key_eqb k (JStr p)) eqn:Ek.
  - apply key_eqb_str in Ek. subst k. injection E as ->.
    apply elem_of_app. left. apply list_elem_of_fmap. exists rest.
    split; [done|]. eapply Hy, Hnav.
  - destruct k; try by apply IHr. apply elem_of_app. right. by apply IHr.
Qed.

Lemma resolvable_ref_of_path ref :
  resolvable spec ref → ∃ p, p ∈ all_paths spec ∧ ref = ref_of_path p.
Proof.
  intros [Hpre [x Hx]]. exists (str_split "/" (str_drop 2 ref)). split.
  - eapply navigate_all_paths, Hx.
  - unfold ref_of_path. rewrite str_join_split. by apply startswith_drop.
Qed.

Lemma unvisited_le_bound visited : unvisited spec visited < fuel_bound spec.
Proof.
  unfold unvisited, fuel_bound.
  pose proof (length_filter (λ p, ref_of_path p ∉ visited) (all_paths spec)).
  lia.
Qed.

Lemma unvisited_enter ref visited :
  resolvable spec ref → ref ∉ visited →
  unvisited spec (visited ∪ {[ref]}) < unvisited spec visited.
Proof.
  intros Hres Hnot. destruct (resolvable_ref_of_path _ Hres) as (p0 & Hin & ->).
  unfold unvisited. induction (all_paths spec) as [| p L IH]; [by apply elem_of_nil in Hin|].
  assert (Hle : ∀ L : list (list string),
    length (filter (λ p, ref_of_path p ∉ visited ∪ {[ref_of_path p0]}) L)
    ≤ length (filter (λ p, ref_of_path p ∉ visited) L)).
  { clear. induction L as [| q L IH]; [done|].
    rewrite !filter_cons. repeat case_decide; simpl; try lia. set_solver. }
  rewrite !filter_cons. apply elem_of_cons in Hin as [<- | Hin].
  - rewrite decide_False by set_solver. rewrite decide_True by done.
    simpl. specialize (Hle L). lia.
  - specialize (IH Hin). repeat case_decide; simpl; try lia. set_solver.
Qed.

(** Termination: with more fuel than there are unvisited references the
    resolver returns. *)
Lemma resolve_reference_total fuel :
  ∀ visited, unvisited spec visited < fuel →
  ∀ ref c, is_Some (resolve_reference spec py_str fuel ref visited c).
Proof.
  induction fuel as [| n IH]; intros visited Hlt ref c; [lia|].
  destruct ref as [| | | | s | |]; simpl; try by eexists.
  destruct (bool_decide (s ∈ visited)) eqn:Hv; [by eexists|].
  apply bool_decide_eq_false in Hv.
  destruct (c !! s); [by eexists|].
  destruct (startswith "#/" s) eqn:Hpre; simpl; [|by eexists].
  destruct (navigate spec _) as [cur|] eqn:Hnav; [|by eexists].
  assert (Hres : resolvable spec s) by (split; [done | by eexists]).
  pose proof (unvisited_enter s visited Hres Hv) as Hdec.
  destruct (dereference_with_total (resolve_reference spec py_str n) (visited ∪ {[s]})
              (IH (visited ∪ {[s]}) ltac:(lia)) cur 0 c) as [[v c'] ->].
  by eexists.
Qed.

Lemma dereference_fuel_total fuel obj visited depth c :
  fuel_bound spec ≤ fuel →
  is_Some (dereference_fuel spec py_str fuel obj visited depth c).
Proof.
  intros Hle. apply dereference_with_total. intros r c0.
  apply resolve_reference_total. pose proof (unvisited_le_bound visited). lia.
Qed.

End ResolverFacts.

(** ** The resolver: termination, idempotence, cache *)

Section ResolverTheorems.
Variable spec : json.
Variable py_str : json → string.


(** C7.  Two calls of [resolve_reference] from outside, on the same
    reference and the same instance, end the same way: the second returns
    the node (or raises the exception) of the first, and leaves the cache
    as the first left it. *)
Theorem resolve_reference_idempotent (R : string) (c : gmap string json) :
  ∃ out c1,
    resolve_reference_top spec py_str (JStr R) c = Some (out, c1)
    ∧ resolve_reference_top spec py_str (JStr R) c1 = Some (out, c1).
Proof.
  unfold resolve_reference_top.
  destruct (resolve_reference_total spec py_str (fuel_bound spec) ∅
              (unvisited_le_bound spec ∅) (JStr R) c) as [[out c1] E].
  exists out, c1. split; [done|].
  revert E. unfold fuel_bound. simpl.
  rewrite bool_decide_eq_false_2 by set_solver.
  destruct (c !! R) as [cached|] eqn:Ec.
  { intros [= <- <-]. by rewrite Ec. }
  destruct (negb (startswith "#/" R)) eqn:Hp.
  { intros [= <- <-]. by rewrite Ec. }
  destruct (navigate spec _) as [cur|] eqn:Hnav.
  2: { intros [= <- <-]. by rewrite Ec. }
  destruct (dereference_with _ _ _ _ _ _) as [[v c']|]; [|done].
  intros [= <- <-]. by rewrite lookup_insert_eq.
Qed.






End ResolverTheorems.


(** ** The schema normaliser *)

Lemma key_eqb_str_l s k : key_eqb (JStr s) k = true → k = JStr s.
Proof.
  destruct k as [| b | z | f | t | l | d]; simpl; try discriminate.
  intros H. apply String.eqb_eq in H. by subst.
Qed.

Lemma dict_find_str_set d k k' v :
  dict_find (JStr k) (dict_set d k' v)
  = if key_eqb k' (JStr k) then Some v else dict_find (JStr k) d.
Proof.
  induction d as [| [k0 v0] r IH]; simpl; [done|].
  destruct (key_eqb k0 k') eqn:E0; simpl.
  - destruct (key_eqb k0 (JStr k)) eqn:E1.
    + apply key_eqb_str in E1. subst k0.
      apply key_eqb_str_l in E0. subst k'. simpl. by rewrite String.eqb_refl.
    + destruct (key_eqb k' (JStr k)) eqn:E2; [|done].
      apply key_eqb_str in E2. subst k'. congruence.
  - rewrite IH. destruct (key_eqb k0 (JStr k)) eqn:E1; [|done].
    apply key_eqb_str in E1. subst k0.
    destruct (key_eqb k' (JStr k)) eqn:E2; [|done].
    apply key_eqb_str in E2. subst k'. simpl in E0.
    by rewrite String.eqb_refl in E0.
Qed.

Lemma get_with_find {A} (f : json → A) key d :
  get_with f key d = f <$> dict_find (JStr key) d.
Proof.
  induction d as [| [k v] r IH]; simpl; [done|].
  by destruct (key_eqb k (JStr key)).
Qed.


Lemma convert_unfold (d : dict) :
  convert_openapi_schema_to_json_schema (JDict d)
  = match convert_body d with Ok json_schema => json_schema | Raise _ => type_string end.
Proof.
  unfold convert_body.
  cbn [convert_openapi_schema_to_json_schema].
  rewrite !get_with_find. unfold safe_get.
  destruct (infer_type d _) as [t|]; [|done]. cbn [rbind].
  destruct (str_eq t "array").
  { by destruct (dict_find (JStr "items") d). }
  destruct (str_eq t "object"); [|done].
  destruct (dict_find (JStr "properties") d) as [props|]; cbn [fmap option_fmap option_map default].
  - destruct (truthy props); [|by destruct (dict_find (JStr "additionalProperties") d)].
    destruct props; try done.
    by destruct (dict_find (JStr "additionalProperties") d).
  - cbn [truthy]. by destruct (dict_find (JStr "additionalProperties") d).
Qed.


Lemma type_kept js t k v :
  dict_find (JStr "type") js = Some t → String.eqb k "type" = false →
  dict_find (JStr "type") (dict_set js (JStr k) v) = Some t.
Proof. intros H Hk. rewrite dict_find_str_set. simpl. by rewrite Hk. Qed.

Lemma set_if_truthy_type schema js t k :
  dict_find (JStr "type") js = Some t → String.eqb k "type" = false →
  dict_find (JStr "type") (set_if_truthy schema k js) = Some t.
Proof. intros H Hk. unfold set_if_truthy. destruct (truthy _); [by apply type_kept | done]. Qed.

Lemma constraints_type schema js t :
  dict_find (JStr "type") js = Some t →
  dict_find (JStr "type") (fold_left (set_if_not_none schema) constraints js) = Some t.
Proof.
  intros H. unfold constraints. cbn [fold_left]. unfold set_if_not_none.
  repeat (match goal with |- context [negb (is_none ?v)] => destruct (negb (is_none v)) end;
          [try (apply type_kept; [|reflexivity])|]); done.
Qed.

(** The type given to the node is the one inferred, unless [properties] is
    something else than a map. *)
Lemma convert_type d t :
  infer_type d (safe_get (JDict d) "type" JNull) = Ok t →
  (∀ v, dict_find (JStr "properties") d = Some v → truthy v = true → is_dict v = true) →
  schema_type_of (convert_openapi_schema_to_json_schema (JDict d)) = Some t.
Proof.
  intros Hinf Hprops. unfold schema_type_of, field.
  rewrite convert_unfold. unfold convert_body.
  rewrite Hinf. cbn [rbind].
  set (js0 := set_if_truthy _ "format" _).
  assert (H0 : dict_find (JStr "type") js0 = Some t).
  { unfold js0. repeat (apply set_if_truthy_type; [|reflexivity]).
    simpl. done. }
  clearbody js0.
  destruct (str_eq t "array").
  { cbn [rbind]. simpl. apply constraints_type. by apply type_kept. }
  destruct (str_eq t "object"); [|by apply constraints_type].
  cbn zeta.
  assert (Hk : ∀ js1, dict_find (JStr "type") js1 = Some t →
    dict_find (JStr "type")
      (fold_left (set_if_not_none (JDict d)) constraints
         (let js2 := if truthy (safe_get (JDict d) "required" (JList []))
                     then dict_set js1 (JStr "required")
                            (safe_get (JDict d) "required" (JList []))
                     else js1 in
          if negb (is_none (safe_get (JDict d) "additionalProperties" JNull)) then
            if is_dict (safe_get (JDict d) "additionalProperties" JNull) then
              dict_set js2 (JStr "additionalProperties")
                (convert_openapi_schema_to_json_schema
                   (safe_get (JDict d) "additionalProperties" JNull))
            else dict_set js2 (JStr "additionalProperties")
                   (safe_get (JDict d) "additionalProperties" JNull)
          else js2)) = Some t).
  { intros js1 H1. apply constraints_type. cbn zeta.
    repeat case_match; repeat (apply type_kept; [|reflexivity]); done. }
  destruct (truthy (safe_get (JDict d) "properties" (JDict []))) eqn:Tv.
  - unfold safe_get in Tv |- * at 1.
    destruct (dict_find (JStr "properties") d) as [v|] eqn:Ep; [|done].
    specialize (Hprops v eq_refl Tv). destruct v; try done.
    cbn [rbind]. apply Hk. by apply type_kept.
  - cbn [rbind]. by apply Hk.
Qed.

(** C1, as amended.  A schema node without a [type] key, whose
    [properties], when present, is a map, gets its type in this order:
    [properties] or [additionalProperties] present, "object"; else [items]
    present, "array"; else [enum] present and a list, from its first value,
    "string" for a string, "number" for an integer or a float, and no type
    ([None]) when the list is empty or its first value is [None], a list or
    a map; else "string". *)
Theorem type_inference_priority (d : dict) :
  dict_has d "type" = false →
  (∀ v, dict_find (JStr "properties") d = Some v → truthy v = true → is_dict v = true) →
  let t := schema_type_of (convert_openapi_schema_to_json_schema (JDict d)) in
  (dict_has d "properties" || dict_has d "additionalProperties" = true →
     t = Some (JStr "object"))
  ∧ (dict_has d "properties" || dict_has d "additionalProperties" = false →
     (dict_has d "items" = true → t = Some (JStr "array"))
     ∧ (dict_has d "items" = false →
        (∀ first rest, dict_find (JStr "enum") d = Some (JList (first :: rest)) →
           (is_str first = true → t = Some (JStr "string"))
           ∧ (is_bool first = false → is_int_or_float first = true →
              t = Some (JStr "number"))
           ∧ (is_str first = false → is_int_or_float first = false → t = Some JNull))
        ∧ (dict_find (JStr "enum") d = Some (JList []) → t = Some JNull)
        ∧ (dict_find (JStr "enum") d = None → t = Some (JStr "string")))).
Proof.
  intros Hty Hprops t. subst t.
  assert (Hget : safe_get (JDict d) "type" JNull = JNull).
  { unfold safe_get, dict_has in *. by destruct (dict_find (JStr "type") d). }
  split; [|intros Hno; split; [|intros Hni; split; [|split]]].
  - intros H. apply convert_type; [|done]. rewrite Hget. unfold infer_type. simpl.
    by rewrite H.
  - intros H. apply convert_type; [|done]. rewrite Hget. unfold infer_type. simpl.
    by rewrite Hno, H.
  - intros first rest He.
    assert (Hh : dict_has d "enum" = true) by (unfold dict_has; by rewrite He).
    repeat split; intros; (apply convert_type; [|done]); rewrite Hget;
      unfold infer_type; simpl; rewrite Hno, Hni, Hh, He; simpl.
    + by destruct first.
    + by destruct first.
    + by destruct first.
  - intros He.
    assert (Hh : dict_has d "enum" = true) by (unfold dict_has; by rewrite He).
    apply convert_type; [|done]. rewrite Hget.
    unfold infer_type; simpl. by rewrite Hno, Hni, Hh, He.
  - intros He.
    assert (Hh : dict_has d "enum" = false) by (unfold dict_has; by rewrite He).
    apply convert_type; [|done]. rewrite Hget.
    unfold infer_type; simpl. by rewrite Hno, Hni, Hh.
Qed.

(** The three conversions that the specification lists. *)
Lemma type_inference_witness :
  schema_type_of (convert_openapi_schema_to_json_schema
                    (JDict [(JStr "items", JDict [(JStr "type", JStr "string")])]))
  = Some (JStr "array")
  ∧ schema_type_of (convert_openapi_schema_to_json_schema
                      (JDict [(JStr "properties", JDict [])]))
    = Some (JStr "object")
  ∧ schema_type_of (convert_openapi_schema_to_json_schema
                      (JDict [(JStr "enum", JList [JInt 1; JInt 2])]))
    = Some (JStr "number").
Proof.
  split; [|split].
  - apply (type_inference_priority [(JStr "items", JDict [(JStr "type", JStr "string")])]);
      [reflexivity | intros v [=] | reflexivity | reflexivity].
  - apply (type_inference_priority [(JStr "properties", JDict [])]);
      [reflexivity | by intros v [= <-] | reflexivity].
  - eapply (type_inference_priority [(JStr "enum", JList [JInt 1; JInt 2])]);
      [reflexivity | intros v [=] | reflexivity | reflexivity | reflexivity
      | reflexivity | reflexivity].
Defined.

(** C1 as stated fails on two inputs.  An [enum] that is present and empty
    leaves the node without a type, where the claim says "string"; and a
    boolean first value gives "number", where the claim says "boolean"
    ([isinstance(True, (int, float))] holds, and is tested first). *)
Lemma type_inference_counterexample :
  convert_openapi_schema_to_json_schema (JDict [(JStr "enum", JList [])])
  = JDict [(JStr "type", JNull)]
  ∧ convert_openapi_schema_to_json_schema (JDict [(JStr "enum", JList [JBool true])])
    = JDict [(JStr "type", JStr "number"); (JStr "enum", JList [JBool true])].
Proof. split; reflexivity. Qed.

(** ** Every computation returns *)


Section Returns.
Variable spec : json.
Variable base_url : option string.
Variable py_str : json → string.
Variable exn_str : exn → string.

Lemma returns_retN {A} (a : A) : returns (retN a).
Proof. intros c. by eexists. Qed.

Lemma returns_ret {A} (a : A) : returns (ret a).
Proof. intros c. by eexists. Qed.

Lemma returns_lift {A} (r : result A) : returns (lift r).
Proof. intros c. by eexists. Qed.

Lemma returns_bindN {A B} (m : N A) (k : A → N B) :
  returns m → (∀ a, returns (k a)) → returns (bindN m k).
Proof. intros Hm Hk c. unfold bindN. destruct (Hm c) as [[a c'] ->]. apply Hk. Qed.

Lemma returns_bind {A B} (m : M A) (k : A → M B) :
  returns m → (∀ a, returns (k a)) → returns (bind m k).
Proof.
  intros Hm Hk c. unfold bind. destruct (Hm c) as [[[a|e] c'] ->]; [apply Hk | by eexists].
Qed.

Lemma returns_noraise {A} (m : N A) : returns m → returns (noraise m).
Proof. intros Hm c. unfold noraise. destruct (Hm c) as [[a c'] ->]. by eexists. Qed.

Lemma returns_try_except {A} (m : M A) (h : exn → N A) :
  returns m → (∀ e, returns (h e)) → returns (try_except m h).
Proof.
  intros Hm Hh c. unfold try_except.
  destruct (Hm c) as [[[a|e] c'] ->]; [by eexists | apply Hh].
Qed.

Lemma returns_for_each {A S} (l : list A) (body : A → S → N S) :
  (∀ x s, returns (body x s)) → ∀ s, returns (for_each l body s).
Proof.
  intros Hb. induction l as [| x r IH]; intros s; simpl.
  - apply returns_retN.
  - apply returns_bindN; [apply Hb | apply IH].
Qed.

Lemma returns_deref obj : returns (deref spec py_str obj).
Proof. intros c. by apply dereference_fuel_total. Qed.

Ltac returns_step :=
  first [ apply returns_retN | apply returns_ret | apply returns_lift
        | apply returns_deref
        | apply returns_noraise | apply returns_try_except
        | apply returns_bindN | apply returns_bind
        | apply returns_for_each
        | progress intros
        | case_match ].

Lemma returns_convert_parameter param st :
  returns (convert_parameter spec py_str param st).
Proof. unfold convert_parameter. repeat returns_step. Qed.

Lemma returns_convert_parameters parameters :
  returns (convert_parameters_to_json_schema spec py_str parameters).
Proof.
  unfold convert_parameters_to_json_schema.
  repeat first [apply returns_convert_parameter | returns_step].
Qed.

Lemma returns_convert_request_body request_body :
  returns (convert_request_body_to_json_schema spec py_str request_body).
Proof. unfold convert_request_body_to_json_schema. repeat returns_step. Qed.

Lemma returns_convert_response responses :
  returns (convert_response_to_json_schema spec py_str responses).
Proof. unfold convert_response_to_json_schema. repeat returns_step. Qed.

Lemma returns_format_server server formatted :
  returns (format_server spec py_str exn_str server formatted).
Proof. unfold format_server. repeat returns_step. Qed.

Lemma returns_extract_servers path_item operation :
  returns (extract_servers spec base_url py_str exn_str path_item operation).
Proof.
  unfold extract_servers. cbn zeta.
  repeat first [apply returns_format_server | returns_step].
Qed.





End Returns.

(** ** Parameters *)

Section ParameterFacts.
Variable spec : json.
Variable py_str : json → string.


Lemma convert_is_dict schema :
  ∃ js, convert_openapi_schema_to_json_schema schema = JDict js.
Proof.
  destruct schema as [| | | | | |d]; try (by eexists).
  rewrite convert_unfold. unfold convert_body.
  destruct (infer_type d _) as [t|]; [|by eexists]. cbn [rbind].
  match goal with |- ∃ js, match rbind ?m _ with _ => _ end = _ =>
    destruct m end; by eexists.
Qed.

Lemma convert_parameter_run param st c :
  convert_parameter spec py_str param st c
  = match deref spec py_str param c with
    | Some (dp, c') => Some (step_parameter st dp, c')
    | None => None
    end.
Proof.
  destruct st as [properties required].
  unfold convert_parameter, try_except, bind, noraise, lift, ret, retN. cbn [fst snd].
  destruct (deref spec py_str param c) as [[dp c']|]; [|done].
  unfold step_parameter, param_name, param_property.
  destruct (truthy (safe_get dp "name" (JStr ""))); [|done]. cbn [andb].
  destruct (convert_is_dict (safe_get dp "schema" (JDict []))) as [js ->].
  unfold setitem, dict_setitem. cbn [hashable rbind].
  destruct (truthy (safe_get dp "description" (JStr "")));
    destruct (hashable (safe_get dp "name" (JStr ""))); done.
Qed.

Lemma for_each_convert_parameter params : ∀ st c,
  for_each params (convert_parameter spec py_str) st c
  = match deref_each spec py_str params c with
    | Some (dps, c') => Some (fold_left step_parameter dps st, c')
    | None => None
    end.
Proof.
  induction params as [| x r IH]; intros st c; simpl; [done|].
  unfold bindN. rewrite convert_parameter_run.
  destruct (deref spec py_str x c) as [[dp c1]|]; [|done].
  rewrite IH. by destruct (deref_each spec py_str r c1) as [[dps c2]|].
Qed.

Lemma convert_parameters_run params c :
  convert_parameters_to_json_schema spec py_str params c
  = match params with
    | [] => Some (JDict [], c)
    | _ => match deref_each spec py_str params c with
           | Some (dps, c') => Some (parameters_schema (fold_left step_parameter dps ([], [])), c')
           | None => None
           end
    end.
Proof.
  unfold convert_parameters_to_json_schema.
  destruct params as [| x r]; [done|]. cbn [truthy negb].
  unfold try_except, bind, noraise, ret. rewrite for_each_convert_parameter.
  destruct (deref_each spec py_str (x :: r) c) as [[dps c']|]; [|done].
  unfold parameters_schema. by destruct (fold_left step_parameter dps ([], [])).1.
Qed.

Lemma returns_deref_each l : returns (deref_each spec py_str l).
Proof.
  induction l as [| x r IH]; simpl; [apply returns_retN|].
  apply returns_bindN; [apply returns_deref|]. intros v.
  apply returns_bindN; [apply IH|]. intros vs. apply returns_retN.
Qed.

(** Entering other names leaves the entry of a name as it is; entering the
    name replaces it. *)
Lemma step_parameter_find n st dp :
  dict_find (JStr n) (step_parameter st dp).1
  = if truthy (param_name dp) && key_eqb (param_name dp) (JStr n)
    then Some (param_property dp) else dict_find (JStr n) st.1.
Proof.
  unfold step_parameter.
  destruct (truthy (param_name dp)) eqn:T; [|done]. cbn [andb].
  destruct (hashable (param_name dp)) eqn:H; cbn [fst].
  - apply dict_find_str_set.
  - destruct (key_eqb (param_name dp) (JStr n)) eqn:E; [|done].
    apply key_eqb_str in E. by rewrite E in H.
Qed.

Lemma fold_step_parameter_last n dp later : ∀ st earlier,
  param_name dp = JStr n → n ≠ "" →
  Forall (λ dp', param_name dp' ≠ JStr n) later →
  dict_find (JStr n) (fold_left step_parameter (earlier ++ dp :: later) st).1
  = Some (param_property dp).
Proof.
  intros st earlier Hn Hne Hlater. rewrite fold_left_app. cbn [fold_left].
  set (st1 := step_parameter (fold_left step_parameter earlier st) dp).
  assert (H1 : dict_find (JStr n) st1.1 = Some (param_property dp)).
  { unfold st1. rewrite step_parameter_find, Hn. simpl.
    rewrite String.eqb_refl. by destruct n. }
  clearbody st1. revert st1 H1.
  induction Hlater as [| dp' r Hdp' _ IH]; intros st1 H1; [done|].
  cbn [fold_left]. apply IH. rewrite step_parameter_find.
  destruct (key_eqb (param_name dp') (JStr n)) eqn:E.
  - apply key_eqb_str in E. done.
  - by rewrite andb_false_r.
Qed.

Lemma fold_step_parameter_nameless dps : ∀ st,
  Forall (λ dp, truthy (param_name dp) = false) dps →
  fold_left step_parameter dps st = st.
Proof.
  induction dps as [| dp r IH]; intros st H; [done|].
  inversion_clear H as [| ? ? Hdp Hr]. cbn [fold_left].
  unfold step_parameter at 2. rewrite Hdp. by apply IH.
Qed.

End ParameterFacts.

(** ** Servers *)

Section ServerFacts.
Variable spec : json.
Variable base_url : option string.
Variable py_str : json → string.
Variable exn_str : exn → string.



Lemma format_server_run server formatted c :
  format_server spec py_str exn_str server formatted c
  = match deref spec py_str server c with
    | Some (ds, c') => Some (formatted ++ from_option (λ s, [s]) [] (server_descriptor ds), c')
    | None => None
    end.
Proof.
  unfold format_server, try_except, bind, noraise, ret, server_descriptor.
  destruct (deref spec py_str server c) as [[ds c']|]; [|done].
  destruct (is_dict ds); simpl; [done | by rewrite app_nil_r].
Qed.

Lemma for_each_format_server servers : ∀ formatted c,
  for_each servers (format_server spec py_str exn_str) formatted c
  = match deref_each spec py_str servers c with
    | Some (dss, c') => Some (formatted ++ omap server_descriptor dss, c')
    | None => None
    end.
Proof.
  induction servers as [| x r IH]; intros formatted c; simpl.
  - unfold retN. by rewrite app_nil_r.
  - unfold bindN. rewrite format_server_run.
    destruct (deref spec py_str x c) as [[ds c1]|]; [|done].
    rewrite IH. destruct (deref_each spec py_str r c1) as [[dss c2]|]; [|done].
    unfold retN. simpl. rewrite <- app_assoc.
    by destruct (server_descriptor ds).
Qed.

Lemma selected_servers path_item operation :
  (let servers := [] in
   let root_servers := safe_get spec "servers" (JList []) in
   let servers := match root_servers with JList l => servers ++ l | _ => servers end in
   let servers :=
     if truthy path_item && is_dict path_item then
       let path_servers := safe_get path_item "servers" (JList []) in
       if is_list path_servers && truthy path_servers
       then match path_servers with JList l => l | _ => servers end
       else servers
     else servers in
   if truthy operation && is_dict operation then
     let operation_servers := safe_get operation "servers" (JList []) in
     if is_list operation_servers && truthy operation_servers
     then match operation_servers with JList l => l | _ => servers end
     else servers
   else servers)
  = working_servers (servers_at spec) (servers_at path_item) (servers_at operation).
Proof.
  cbn zeta. unfold working_servers, servers_at.
  assert (Hlevel : ∀ obj (w : list json),
    (if truthy obj && is_dict obj then
       if is_list (safe_get obj "servers" (JList [])) && truthy (safe_get obj "servers" (JList []))
       then match safe_get obj "servers" (JList []) with JList l => l | _ => w end
       else w
     else w)
    = match (match safe_get obj "servers" (JList []) with JList l => l | _ => [] end) with
      | [] => w
      | _ :: _ => match safe_get obj "servers" (JList []) with JList l => l | _ => [] end
      end).
  { intros obj w. destruct obj as [| | | | | |d]; try (simpl; by rewrite ?andb_false_r).
    destruct d as [| kv d]; [done|]. cbn [truthy is_dict andb].
    destruct (safe_get (JDict (kv :: d)) "servers" (JList [])) as [| | | | | [|x l] |]; done. }
  rewrite !Hlevel. cbn [app].
  by destruct (safe_get spec "servers" (JList [])).
Qed.

Lemma extract_servers_run path_item operation c :
  extract_servers spec base_url py_str exn_str path_item operation c
  = match deref_each spec py_str
            (working_servers (servers_at spec) (servers_at path_item)
               (servers_at operation)) c with
    | Some (dss, c') =>
        let resolved := or_placeholder (omap server_descriptor dss) in
        Some (match base_url_set base_url with
              | Some b => map (override_server b) resolved
              | None => resolved
              end, c')
    | None => None
    end.
Proof.
  unfold extract_servers. rewrite selected_servers.
  unfold try_except, bind, noraise, ret. rewrite for_each_format_server.
  destruct (deref_each _ _ _ c) as [[dss c']|]; [|done].
  cbn [app]. cbn zeta.
  destruct (omap server_descriptor dss); simpl; by destruct (base_url_set base_url).
Qed.

Lemma override_server_fields b server :
  dict_find (JStr "url") (override_server b server) = Some (JStr b)
  ∧ dict_find (JStr "description") (override_server b server)
    = Some (JStr ("Base URL override: " +:+ b)).
Proof. unfold override_server. by rewrite !dict_find_str_set. Qed.


(** What [extract_servers] returns is never empty, and every server in it
    has a url. *)
Lemma extract_servers_nonempty path_item operation c servers c' :
  extract_servers spec base_url py_str exn_str path_item operation c = Some (servers, c') →
  servers ≠ [] ∧ Forall (λ server, is_Some (dict_find (JStr "url") server)) servers.
Proof.
  rewrite extract_servers_run.
  destruct (deref_each _ _ _ c) as [[dss c1]|]; [|done]. cbn zeta.
  intros [= <- <-].
  assert (Hf : Forall (λ server, is_Some (dict_find (JStr "url") server))
                 (omap server_descriptor dss)).
  { apply Forall_forall. intros s (ds & _ & Hs)%list_elem_of_omap.
    unfold server_descriptor in Hs. destruct (is_dict ds); [|done].
    injection Hs as <-. by eexists. }
  assert (Hr : or_placeholder (omap server_descriptor dss) ≠ []
    ∧ Forall (λ server, is_Some (dict_find (JStr "url") server))
        (or_placeholder (omap server_descriptor dss))).
  { unfold or_placeholder. destruct (omap server_descriptor dss); [|done].
    split; [done|]. repeat constructor. by eexists. }
  destruct Hr as [Hne Hall].
  destruct (base_url_set base_url) as [b|]; [|done]. split.
  - intros Hmap. apply fmap_nil_inv in Hmap. done.
  - apply Forall_fmap. apply Forall_forall. intros s _. simpl.
    destruct (override_server_fields b s) as [-> _]. by eexists.
Qed.

End ServerFacts.

(** ** Operations *)

Section OperationFacts.
Variable spec : json.
Variable base_url : option string.
Variable py_str : json → string.
Variable exn_str : exn → string.

(** What a successful [build_operation] went through. *)
Lemma build_operation_inv endpoint dpi path_parameters method operation c info tags c' :
  build_operation spec base_url py_str exn_str endpoint dpi path_parameters method
    operation c = Some (Ok (info, tags), c') →
  ∃ e name servers c1 base parameters c2 body c3 response,
    endpoint = JStr e
    ∧ extract_servers spec base_url py_str exn_str dpi operation c = Some (servers, c1)
    ∧ first_server_url servers = Ok base
    ∧ convert_parameters_to_json_schema spec py_str
        (merge_parameters path_parameters (safe_get operation "parameters" (JList []))) c1
      = Some (parameters, c2)
    ∧ convert_request_body_to_json_schema spec py_str
        (safe_get operation "requestBody" (JDict [])) c2 = Some (body, c3)
    ∧ convert_response_to_json_schema spec py_str
        (safe_get operation "responses" (JDict [])) c3 = Some (response, c')
    ∧ info = JDict [(JStr "name", JStr name);
                    (JStr "description",
                     safe_get operation "description"
                       (safe_get operation "summary" (JStr "")));
                    (JStr "method", JStr (str_upper method));
                    (JStr "endpoint",
                     JStr (if truthy (JStr base) then base +:+ e else e));
                    (JStr "headers",
                     JList [JDict [(JStr "name", JStr "Authorization");
                                   (JStr "required", JBool true)]]);
                    (JStr "parameters", parameters);
                    (JStr "body", body);
                    (JStr "response", response)].
Proof.
  unfold build_operation. cbn zeta. unfold bind, lift, noraise, ret.
  destruct endpoint as [| | | | e | |]; try done.
  destruct (safe_get operation "operationId" _) as [| | | | opid | |]; try done.
  destruct (extract_servers _ _ _ _ dpi operation c) as [[servers c1]|] eqn:E1; [|done].
  destruct (first_server_url servers) as [base|] eqn:E2; [|done].
  destruct (convert_parameters_to_json_schema _ _ _ c1) as [[parameters c2]|] eqn:E3;
    [|done].
  destruct (convert_request_body_to_json_schema _ _ _ c2) as [[body c3]|] eqn:E4; [|done].
  destruct (convert_response_to_json_schema _ _ _ c3) as [[response c4]|] eqn:E5; [|done].
  intros [= <- <- <-].
  by eexists e, _, servers, c1, base, parameters, c2, body, c3, response.
Qed.

(** A property of the accumulated value that every turn of a loop keeps
    holds at the end of the loop. *)
Lemma for_each_invariant {A S} (P : S → Prop) (l : list A) (body : A → S → N S) :
  (∀ x s c s' c', body x s c = Some (s', c') → P s → P s') →
  ∀ s c s' c', for_each l body s c = Some (s', c') → P s → P s'.
Proof.
  intros Hbody. induction l as [| x r IH]; intros s c s' c'; simpl.
  - by intros [= <- <-].
  - unfold bindN. destruct (body x s c) as [[s1 c1]|] eqn:E; [|done].
    intros Hr Hs. eapply IH; [exact Hr|]. eapply Hbody; [exact E | exact Hs].
Qed.

(** Every descriptor of the result was made by a [build_operation] that
    succeeded. *)
Lemma extract_paths_built (P : json * json → Prop) :
  (∀ endpoint dpi path_parameters method operation c unit c',
     build_operation spec base_url py_str exn_str endpoint dpi path_parameters method
       operation c = Some (Ok unit, c') → P unit) →
  ∀ c extracted c',
    extract_paths spec base_url py_str exn_str c = Some (extracted, c') →
    Forall P extracted.
Proof.
  intros Hbuild c extracted c'.
  unfold extract_paths, try_except, noraise, ret, retN.
  destruct (safe_get spec "paths" (JDict [])) as [| | | | | |items];
    try (intros [= <- _]; constructor).
  destruct (for_each items _ [] c) as [[l c1]|] eqn:E; [|done].
  intros [= <- <-].
  eapply (for_each_invariant (Forall P)); [|exact E|constructor].
  clear E. intros [endpoint path_item] s c0 s' c0'.
  unfold each_path, try_except, noraise, bindN, retN. cbn [fst snd].
  destruct (deref spec py_str path_item c0) as [[dpi c2]|]; [|done].
  destruct (is_dict dpi); cbn [negb].
  2: { intros [= <- _]. done. }
  destruct (for_each methods _ s c2) as [[l2 c3]|] eqn:E2; [|done].
  intros [= <- <-] Hs.
  eapply (for_each_invariant (Forall P)); [|exact E2|exact Hs].
  clear E2 Hs. intros method s0 c4 s1 c5.
  unfold each_method, try_except, bind, lift, ret, retN.
  destruct (match dpi with JDict d => dict_has d method | _ => false end).
  2: { intros [= <- _]. done. }
  destruct (getitem dpi method) as [operation|]; [|by intros [= <- _]].
  destruct (is_dict operation); cbn [negb]; [|by intros [= <- _]].
  destruct (build_operation _ _ _ _ _ _ _ _ _ c4) as [[[unit|e] c6]|] eqn:Eb; [| |done].
  - intros [= <- _] H0. apply Forall_app. split; [done|].
    repeat constructor. eapply Hbuild, Eb.
  - by intros [= <- _].
Qed.




Lemma parameters_schema_shape st : parameters_shape (parameters_schema st).
Proof.
  unfold parameters_schema, parameters_shape.
  destruct st.1 as [| kv P] eqn:E; [by left|]. right. by exists (kv :: P), st.2.
Qed.

(** C10.  The [parameters] of every descriptor that [extract_paths] returns
    is the empty object, or an object with "type" "object", a non-empty
    [properties] map and a [required] list.  It is the empty object when
    the parameter list is empty and when no parameter has a truthy name. *)
Theorem parameters_field_shape :
  (∀ c extracted c',
     extract_paths spec base_url py_str exn_str c = Some (extracted, c') →
     Forall (λ unit, ∃ p, field unit.1 "parameters" = Some p ∧ parameters_shape p)
       extracted)
  ∧ (∀ parameters c, ∃ p c',
       convert_parameters_to_json_schema spec py_str parameters c = Some (p, c')
       ∧ parameters_shape p
       ∧ (parameters = [] → p = JDict [])
       ∧ (∀ dps c1, deref_each spec py_str parameters c = Some (dps, c1) →
            Forall (λ dp, truthy (param_name dp) = false) dps → p = JDict [])).
Proof.
  assert (Hshape : ∀ parameters c p c',
    convert_parameters_to_json_schema spec py_str parameters c = Some (p, c') →
    parameters_shape p).
  { intros parameters c p c'. rewrite convert_parameters_run.
    destruct parameters as [| x r]; [intros [= <- _]; by left|].
    destruct (deref_each _ _ _ c) as [[dps c1]|]; [|done].
    intros [= <- _]. apply parameters_schema_shape. }
  split.
  - apply extract_paths_built.
    intros endpoint dpi pp method operation c [info tags] c' Hb.
    apply build_operation_inv in Hb
      as (e & name & servers & c1 & base & ps & c2 & body & c3 & resp
          & _ & _ & _ & Hp & _ & _ & ->).
    exists ps. split; [done|]. eapply Hshape, Hp.
  - intros parameters c.
    destruct (returns_convert_parameters spec py_str parameters c) as [[p c'] E].
    exists p, c'. split; [done|]. split; [eapply Hshape, E|].
    revert E. rewrite convert_parameters_run. split.
    + intros ->. by injection E as <- _.
    + intros dps c1 Hd Hall. destruct parameters as [| x r]; [by injection E as <- _|].
      rewrite Hd in E. injection E as <- _.
      by rewrite fold_step_parameter_nameless.
Qed.

(** C8.  The [parameters] of a descriptor is the conversion of the merged
    list, and the merged list is the parameters of the path item followed
    by those of the operation, each kept.  In the property map, the entry
    of a name is the one of the last parameter with that name: a later
    parameter overwrites an earlier one. *)
Theorem parameters_merge_last_wins :
  (∀ endpoint dpi path_parameters method operation c info tags c',
     build_operation spec base_url py_str exn_str endpoint dpi path_parameters method
       operation c = Some (Ok (info, tags), c') →
     ∃ p c1 c2,
       field info "parameters" = Some p
       ∧ convert_parameters_to_json_schema spec py_str
           (merge_parameters path_parameters (safe_get operation "parameters" (JList [])))
           c1 = Some (p, c2))
  ∧ (∀ path_parameters operation_parameters,
       merge_parameters (JList path_parameters) (JList operation_parameters)
       = path_parameters ++ operation_parameters)
  ∧ (∀ parameters c earlier dp later c' n,
       deref_each spec py_str parameters c = Some (earlier ++ dp :: later, c') →
       param_name dp = JStr n → n ≠ "" →
       Forall (λ dp', param_name dp' ≠ JStr n) later →
       ∃ properties required,
         convert_parameters_to_json_schema spec py_str parameters c
         = Some (JDict [(JStr "type", JStr "object");
                        (JStr "properties", JDict properties);
                        (JStr "required", JList required)], c')
         ∧ dict_find (JStr n) properties = Some (param_property dp)).
Proof.
  split; [|split; [done|]].
  { intros endpoint dpi pp method operation c info tags c' Hb.
    apply build_operation_inv in Hb
      as (e & name & servers & c1 & base & ps & c2 & body & c3 & resp
          & _ & _ & _ & Hp & _ & _ & ->).
    by exists ps, c1, c2. }
  intros parameters c earlier dp later c' n Hd Hn Hne Hlater.
  rewrite convert_parameters_run.
  destruct parameters as [| x r].
  { simpl in Hd. injection Hd as Hd _. by destruct earlier. }
  rewrite Hd.
  pose proof (fold_step_parameter_last n dp later ([], []) earlier Hn Hne Hlater) as Hlast.
  unfold parameters_schema.
  destruct (fold_left step_parameter (earlier ++ dp :: later) ([], [])) as [P R].
  cbn [fst snd] in *. destruct P as [| kv P]; [done|]. by eexists _, _.
Qed.

End OperationFacts.

(** ** Response *)

Section ResponseFacts.
Variable spec : json.
Variable py_str : json → string.


Lemma first_response_found d n response_data : ∀ k a,
  a ≤ n < a + k →
  dict_find (JStr (str_of_nat n)) d = Some response_data →
  (∀ m, a ≤ m < n → dict_find (JStr (str_of_nat m)) d = None) →
  first_response (seq a k) (JDict d) = Ok response_data.
Proof.
  induction k as [| k IH]; intros a Hr Hn Hbefore; [lia|].
  cbn [seq first_response py_in rbind getitem]. unfold dict_has.
  destruct (decide (a = n)) as [->|Hne].
  - by rewrite Hn.
  - rewrite (Hbefore a) by lia. apply IH; [lia | done |].
    intros m Hm. apply Hbefore. lia.
Qed.



Lemma preferred_schema_none content : ∀ media_types,
  Forall (λ m, dict_find (JStr m) content = None) media_types →
  preferred_schema media_types (JDict content) = Ok (JDict []).
Proof.
  induction media_types as [| m r IH]; intros Hb; [done|].
  cbn [preferred_schema py_in rbind getitem]; unfold dict_has.
  inversion_clear Hb as [| ? ? H1 H2]. rewrite H1. by apply IH.
Qed.



Lemma dereference_falsy obj c :
  truthy obj = false → deref spec py_str obj c = Some (obj, c).
Proof. destruct obj as [| | | | | [|x l] | [|kv d]]; done. Qed.


End ResponseFacts.

(** ** Failure containment *)

Section Containment.
Variable spec : json.
Variable base_url : option string.
Variable py_str : json → string.
Variable exn_str : exn → string.







End Containment.

(** ** The sample documents *)

Import Examples.





(** C8 on a path-level and an operation-level parameter named [id]: the
    entry of [id] is the one of the operation. *)
Lemma last_parameter_wins_witness :
  ∃ properties required,
    convert_parameters_to_json_schema api no_str [id_of_path; id_of_operation] ∅
    = Some (JDict [(JStr "type", JStr "object");
                   (JStr "properties", JDict properties);
                   (JStr "required", JList required)], ∅)
    ∧ dict_find (JStr "id") properties = Some (param_property id_of_operation).
Proof.
  apply (proj2 (proj2 (parameters_merge_last_wins api None no_str no_exn))
           [id_of_path; id_of_operation] ∅ [id_of_path] id_of_operation [] ∅ "id").
  - vm_compute. reflexivity.
  - reflexivity.
  - done.
  - constructor.
Defined.


Example endpoint_url_example :
  field put_info "endpoint" = Some (JStr "https://api.example.com/v1/users/{id}").
Proof. vm_compute. reflexivity. Qed.

(** C10 on the sample document. *)
Lemma parameters_shape_witness :
  Forall (λ unit, ∃ p, field unit.1 "parameters" = Some p ∧ parameters_shape p) extracted.
Proof.
  apply (proj1 (parameters_field_shape api None no_str no_exn) ∅ extracted extracted_cache).
  vm_compute. reflexivity.
Defined.

(** The sample document has three operations; the one that cannot be built
    is left out, the two others are returned. *)
Example extract_paths_example :
  map (λ unit, (field unit.1 "name", field unit.1 "method", unit.2)) extracted
  = [(Some (JStr "getV1UsersId"), Some (JStr "GET"), JList [JStr "untagged"]);
     (Some (JStr "putUser"), Some (JStr "PUT"), JList [JStr "users"])].
Proof. vm_compute. reflexivity. Qed.

(** The example of the docstring of [to_camel_case] keeps the first word;
    the docstring drops it. *)
Example to_camel_case_doc :
  to_camel_case "security-advisories/get-global-advisory"
  = "securityAdvisoriesGetGlobalAdvisory".
Proof. reflexivity. Qed.

(** ** Names *)

Lemma str_app_cons a (r s : string) : String a r +:+ s = String a (r +:+ s).
Proof. reflexivity. Qed.

Lemma str_app_nil_l (s : string) : "" +:+ s = s.
Proof. reflexivity. Qed.

Lemma str_app_assoc (s1 s2 s3 : string) : (s1 +:+ s2) +:+ s3 = s1 +:+ s2 +:+ s3.
Proof.
  induction s1 as [| a r IH]; [done|]. rewrite !str_app_cons. by f_equal.
Qed.

Lemma str_app_nil_r (s : string) : s +:+ "" = s.
Proof. induction s as [| a r IH]; [done|]. rewrite str_app_cons. by f_equal. Qed.

Lemma str_exists_app p s1 s2 :
  str_exists p (s1 +:+ s2) = str_exists p s1 || str_exists p s2.
Proof.
  induction s1 as [| a r IH]; [done|]. rewrite str_app_cons. simpl.
  by rewrite IH, orb_assoc.
Qed.

Lemma all_alnum_app s1 s2 : all_alnum s1 → all_alnum s2 → all_alnum (s1 +:+ s2).
Proof. unfold all_alnum. intros H1 H2. by rewrite str_exists_app, H1, H2. Qed.

Lemma alnum_words_all s : ∀ cur, all_alnum cur → Forall all_alnum (alnum_words cur s).
Proof.
  induction s as [| a r IH]; intros cur Hcur; simpl.
  - destruct cur; by repeat constructor.
  - destruct (is_alnum a) eqn:Ha.
    + apply IH. apply all_alnum_app; [done|]. unfold all_alnum. simpl. by rewrite Ha.
    + destruct cur; [by apply IH|]. constructor; [done | by apply IH].
Qed.

Lemma in_range_spec lo hi a :
  in_range lo hi a = true ↔ lo ≤ nat_of_ascii a ≤ hi.
Proof.
  unfold in_range. rewrite andb_true_iff, !Nat.leb_le. done.
Qed.

Lemma is_alnum_lower a : is_alnum a = true → is_alnum (ascii_lower a) = true.
Proof.
  intros Ha. unfold ascii_lower. destruct (is_upper a) eqn:Hu; [|done].
  apply in_range_spec in Hu.
  assert (Hl : is_lower (ascii_of_nat (nat_of_ascii a + 32)) = true).
  { apply in_range_spec. rewrite nat_ascii_embedding by lia. lia. }
  unfold is_alnum. by rewrite Hl, orb_true_r.
Qed.

Lemma is_alnum_upper a : is_alnum a = true → is_alnum (ascii_upper a) = true.
Proof.
  intros Ha. unfold ascii_upper. destruct (is_lower a) eqn:Hu; [|done].
  apply in_range_spec in Hu.
  assert (Hl : is_upper (ascii_of_nat (nat_of_ascii a - 32)) = true).
  { apply in_range_spec. rewrite nat_ascii_embedding by lia. lia. }
  unfold is_alnum. by rewrite Hl.
Qed.

Lemma all_alnum_cons a s : all_alnum (String a s) ↔ is_alnum a = true ∧ all_alnum s.
Proof.
  unfold all_alnum. simpl. rewrite orb_false_iff, negb_false_iff. done.
Qed.

Lemma all_alnum_map f s :
  (∀ a, is_alnum a = true → is_alnum (f a) = true) →
  all_alnum s → all_alnum (str_map f s).
Proof.
  intros Hf. induction s as [| a r IH]; [done|]. simpl.
  rewrite !all_alnum_cons. intros [Ha Hr]. split; [by apply Hf | by apply IH].
Qed.

Lemma all_alnum_capitalize w : all_alnum w → all_alnum (capitalize w).
Proof.
  destruct w as [| a r]; [done|]. simpl. rewrite !all_alnum_cons. intros [Ha Hr].
  split; [by apply is_alnum_upper | by apply all_alnum_map; [apply is_alnum_lower|]].
Qed.

Lemma all_alnum_fold ws : ∀ init,
  all_alnum init → Forall all_alnum ws →
  all_alnum (fold_left (λ acc word, acc +:+ capitalize word) ws init).
Proof.
  induction ws as [| w r IH]; intros init Hi Hws; [done|].
  inversion_clear Hws as [| ? ? Hw Hr]. simpl. apply IH; [|done].
  apply all_alnum_app; [done | by apply all_alnum_capitalize].
Qed.

Lemma camel_words_alnum w ws :
  all_alnum w → Forall all_alnum ws →
  all_alnum (fold_left (λ acc word, acc +:+ capitalize word) ws (str_lower w)).
Proof.
  intros Hw Hws. apply all_alnum_fold; [|done].
  by apply all_alnum_map; [apply is_alnum_lower|].
Qed.

(** X1.  Whatever the text, [to_camel_case] returns ASCII letters and
    digits only. *)
Theorem to_camel_case_alnum (text : string) : all_alnum (to_camel_case text).
Proof.
  unfold to_camel_case.
  pose proof (alnum_words_all text "" eq_refl) as Hws.
  destruct (alnum_words "" text) as [| w ws]; [done|].
  inversion_clear Hws as [| ? ? Hw Hr].
  by apply camel_words_alnum.
Qed.

Lemma normalize_name_alnum s : all_alnum (normalize_name s).
Proof.
  unfold normalize_name. destruct (str_exists _ s) eqn:E; [|exact E].
  unfold to_camel_case.
  pose proof (alnum_words_all s "" eq_refl) as Hws.
  destruct (alnum_words "" s) as [| w ws]; [done|].
  inversion_clear Hws as [| ? ? Hw Hr].
  by apply camel_words_alnum.
Qed.

Lemma normalize_name_fixed n : all_alnum n → normalize_name n = n.
Proof. intros H. unfold normalize_name. by rewrite H. Qed.

Lemma alnum_words_prefix w : ∀ cur x,
  all_alnum w → cur +:+ w ≠ "" →
  alnum_words cur (w +:+ String "_" x) = (cur +:+ w) :: alnum_words "" x.
Proof.
  induction w as [| a r IH]; intros cur x Hw Hne.
  - rewrite str_app_nil_l, str_app_nil_r in *. simpl. by destruct cur.
  - apply all_alnum_cons in Hw as [Ha Hr]. rewrite str_app_cons. simpl. rewrite Ha.
    rewrite IH; [|done|].
    + by rewrite str_app_assoc.
    + rewrite str_app_assoc. simpl. by destruct cur.
Qed.

Lemma camel_fold_prefix ws : ∀ init,
  fold_left (λ acc word, acc +:+ capitalize word) ws init
  = init +:+ fold_left (λ acc word, acc +:+ capitalize word) ws "".
Proof.
  induction ws as [| w r IH]; intros init; simpl.
  - by rewrite str_app_nil_r.
  - rewrite IH, (IH ("" +:+ capitalize w)). by rewrite str_app_nil_l, str_app_assoc.
Qed.

(** The name made from a method and a path: the method, then the words of
    the path. *)
Lemma normalize_synthesized method slug :
  all_alnum method → method ≠ "" →
  normalize_name (method +:+ "_" +:+ slug)
  = str_lower method
    +:+ fold_left (λ acc word, acc +:+ capitalize word) (alnum_words "" slug) "".
Proof.
  intros Hm Hne. unfold normalize_name.
  assert (Hex : str_exists (λ a, negb (is_alnum a)) (method +:+ "_" +:+ slug) = true).
  { rewrite str_exists_app. simpl. by rewrite orb_true_r. }
  rewrite Hex. unfold to_camel_case.
  change (method +:+ "_" +:+ slug) with (method +:+ String "_" slug).
  rewrite (alnum_words_prefix method "" slug) by done.
  rewrite str_app_nil_l. apply camel_fold_prefix.
Qed.

(** ** Operations, continued *)

Section OperationMore.
Variable spec : json.
Variable base_url : option string.
Variable py_str : json → string.
Variable exn_str : exn → string.

Lemma for_each_invariant_in {A S} (P : S → Prop) (l : list A) (body : A → S → N S) :
  (∀ x s c s' c', x ∈ l → body x s c = Some (s', c') → P s → P s') →
  ∀ s c s' c', for_each l body s c = Some (s', c') → P s → P s'.
Proof.
  induction l as [| x r IH]; intros Hbody s c s' c'; simpl.
  - by intros [= <- <-].
  - unfold bindN. destruct (body x s c) as [[s1 c1]|] eqn:E; [|done].
    intros Hr Hs. eapply IH; [|exact Hr|].
    + intros y s0 c0 s0' c0' Hy. apply Hbody. by right.
    + eapply Hbody; [by left | exact E | exact Hs].
Qed.

(** Every unit of the result was built for a path of the document and one
    of the eight methods, from the operation that the dereferenced path item
    has for that method. *)
Lemma extract_paths_built_from (P : json * json → Prop) :
  (∀ endpoint path_item dpi c0 c1 method operation c unit c',
     (endpoint, path_item) ∈ path_items spec →
     deref spec py_str path_item c0 = Some (dpi, c1) →
     In method methods →
     field dpi method = Some operation →
     build_operation spec base_url py_str exn_str endpoint dpi
       (safe_get dpi "parameters" (JList [])) method operation c = Some (Ok unit, c') →
     P unit) →
  ∀ c extracted c',
    extract_paths spec base_url py_str exn_str c = Some (extracted, c') →
    Forall P extracted.
Proof.
  intros Hbuild c extracted c'.
  unfold extract_paths, try_except, noraise, ret, retN, path_items in *.
  destruct (safe_get spec "paths" (JDict [])) as [| | | | | |items];
    try (intros [= <- _]; constructor).
  destruct (for_each items _ [] c) as [[l c1]|] eqn:E; [|done].
  intros [= <- <-].
  eapply (for_each_invariant_in (Forall P)); [|exact E|constructor].
  clear E. intros [endpoint path_item] s c0 s' c0' Hitem.
  unfold each_path, try_except, noraise, bindN, retN. cbn [fst snd].
  destruct (deref spec py_str path_item c0) as [[dpi c2]|] eqn:Ed; [|done].
  destruct (is_dict dpi); cbn [negb].
  2: { intros [= <- _]. done. }
  destruct (for_each methods _ s c2) as [[l2 c3]|] eqn:E2; [|done].
  intros [= <- <-] Hs.
  eapply (for_each_invariant_in (Forall P)); [|exact E2|exact Hs].
  clear E2 Hs. intros method s0 c4 s1 c5 Hm.
  unfold each_method, try_except, bind, lift, ret, retN.
  destruct dpi as [| | | | | |d]; try (intros [= <- _]; done).
  unfold dict_has, getitem.
  destruct (dict_find (JStr method) d) as [operation|] eqn:Eo; [|by intros [= <- _]].
  destruct (is_dict operation); cbn [negb]; [|by intros [= <- _]].
  destruct (build_operation _ _ _ _ _ _ _ _ _ c4) as [[[unit|e] c6]|] eqn:Eb; [| |done].
  - intros [= <- _] H0. apply Forall_app. split; [done|].
    repeat constructor.
    eapply (Hbuild endpoint path_item (JDict d) c0 c2 method operation c4 unit c6);
      try done. by apply list_elem_of_In.
  - by intros [= <- _].
Qed.

(** The name and the tags of a unit that was built. *)
Lemma build_operation_name_tags endpoint dpi path_parameters method operation c
    info tags c' :
  build_operation spec base_url py_str exn_str endpoint dpi path_parameters method
    operation c = Some (Ok (info, tags), c') →
  ∃ e opid,
    endpoint = JStr e
    ∧ safe_get operation "operationId" (JStr (method +:+ "_" +:+ path_slug e)) = JStr opid
    ∧ field info "name" = Some (JStr (normalize_name opid))
    ∧ tags = (if negb (truthy (safe_get operation "tags" (JList [])))
              then JList [JStr "untagged"]
              else safe_get operation "tags" (JList [])).
Proof.
  unfold build_operation. cbn zeta. unfold bind, lift, noraise, ret.
  destruct endpoint as [| | | | e | |]; try done.
  destruct (safe_get operation "operationId" _) as [| | | | opid | |] eqn:Eo; try done.
  destruct (extract_servers _ _ _ _ dpi operation c) as [[servers c1]|]; [|done].
  destruct (first_server_url servers) as [base|]; [|done].
  destruct (convert_parameters_to_json_schema _ _ _ c1) as [[parameters c2]|]; [|done].
  destruct (convert_request_body_to_json_schema _ _ _ c2) as [[body c3]|]; [|done].
  destruct (convert_response_to_json_schema _ _ _ c3) as [[response c4]|]; [|done].
  intros [= <- <- <-]. by exists e, opid.
Qed.

Lemma upper_of_methods method : In method methods → In (str_upper method) upper_methods.
Proof.
  unfold methods. intros Hin. repeat (destruct Hin as [<- | Hin]; [vm_compute; tauto|]).
  destruct Hin.
Qed.

(** X2.  Every unit that [extract_paths] returns is a descriptor with the
    eight keys name, description, method, endpoint, headers, parameters,
    body, response, in that order: the name and the endpoint are strings,
    the method is one of the eight in upper case, the headers are the one
    Authorization header; and its tags are never empty (falsy). *)
Theorem descriptors_shape (c : gmap string json) extracted c' :
  extract_paths spec base_url py_str exn_str c = Some (extracted, c') →
  Forall (λ unit, descriptor_shape unit.1 ∧ truthy unit.2 = true) extracted.
Proof.
  apply extract_paths_built_from.
  intros endpoint path_item dpi c0 c1 method operation c2 [info tags] c3 _ _ Hm _ Hb.
  pose proof (build_operation_name_tags _ _ _ _ _ _ _ _ _ Hb)
    as (e0 & opid & _ & _ & _ & Ht).
  apply build_operation_inv in Hb
    as (e & name & servers & c4 & base & ps & c5 & body & c6 & resp
        & _ & _ & _ & _ & _ & _ & ->).
  cbn [fst snd]. split.
  - eexists _, _, (str_upper method), _, _, _, _. split; [by apply upper_of_methods|done].
  - rewrite Ht. by destruct (truthy (safe_get operation "tags" (JList []))) eqn:T.
Qed.

(** X3.  The name of every descriptor is made of ASCII letters and digits
    only, so that normalising it again changes nothing. *)
Theorem descriptor_names_normalized (c : gmap string json) extracted c' :
  extract_paths spec base_url py_str exn_str c = Some (extracted, c') →
  Forall (λ unit, ∃ n, field unit.1 "name" = Some (JStr n)
                       ∧ all_alnum n ∧ normalize_name n = n) extracted.
Proof.
  apply extract_paths_built_from.
  intros endpoint path_item dpi c0 c1 method operation c2 [info tags] c3 _ _ _ _ Hb.
  apply build_operation_name_tags in Hb as (e & opid & _ & _ & Hn & _).
  exists (normalize_name opid). split; [done|].
  pose proof (normalize_name_alnum opid) as Ha.
  split; [done | by apply normalize_name_fixed].
Qed.

(** X4.  Without an [operationId], the name of an operation is made from
    the method and the path: it starts with the method, so it is not empty,
    and the words of the path follow, capitalised. *)
Theorem synthesized_name endpoint dpi path_parameters method operation c info tags c' :
  In method methods →
  field operation "operationId" = None →
  build_operation spec base_url py_str exn_str (JStr endpoint) dpi path_parameters
    method operation c = Some (Ok (info, tags), c') →
  ∃ n, field info "name" = Some (JStr n)
       ∧ n = method +:+ fold_left (λ acc word, acc +:+ capitalize word)
                          (alnum_words "" (path_slug endpoint)) ""
       ∧ n ≠ "".
Proof.
  intros Hm Hid Hb.
  apply build_operation_name_tags in Hb as (e & opid & [= <-] & Ho & Hn & _).
  assert (Hdef : opid = method +:+ "_" +:+ path_slug endpoint).
  { unfold safe_get, field in *. destruct operation; try by injection Ho.
    rewrite Hid in Ho. by injection Ho. }
  subst opid. eexists. split; [exact Hn|].
  assert (Hmeth : all_alnum method ∧ method ≠ "" ∧ str_lower method = method).
  { unfold methods in Hm.
    repeat (destruct Hm as [<- | Hm]; [by vm_compute|]). destruct Hm. }
  destruct Hmeth as (Ha & Hne & Hl).
  rewrite normalize_synthesized, Hl by done. split; [done|].
  by destruct method.
Qed.

Lemma for_each_length {A B} (l : list A) (body : A → list B → N (list B)) (k : nat) :
  (∀ x s c s' c', body x s c = Some (s', c') → length s' ≤ length s + k) →
  ∀ s c s' c', for_each l body s c = Some (s', c') →
  length s' ≤ length s + k * length l.
Proof.
  intros Hbody. induction l as [| x r IH]; intros s c s' c'; simpl.
  - intros [= <- _]. lia.
  - unfold bindN. destruct (body x s c) as [[s1 c1]|] eqn:E; [|done].
    intros Hr. apply IH in Hr. apply Hbody in E. lia.
Qed.

(** X5.  [extract_paths] returns at most one descriptor for a path and a
    method: no more than eight times the number of paths, and none when the
    document has no path map. *)
Theorem extract_paths_count (c : gmap string json) extracted c' :
  extract_paths spec base_url py_str exn_str c = Some (extracted, c') →
  length extracted ≤ 8 * length (path_items spec).
Proof.
  unfold extract_paths, try_except, noraise, ret, retN, path_items.
  destruct (safe_get spec "paths" (JDict [])) as [| | | | | |items];
    try (intros [= <- _]; simpl; lia).
  destruct (for_each items _ [] c) as [[l c1]|] eqn:E; [|done].
  intros [= <- <-].
  apply (for_each_length items _ 8) in E; [simpl in E; lia|].
  clear. intros [endpoint path_item] s c s' c'.
  unfold each_path, try_except, noraise, bindN, retN. cbn [fst snd].
  destruct (deref spec py_str path_item c) as [[dpi c2]|]; [|done].
  destruct (is_dict dpi); cbn [negb]; [|intros [= <- _]; lia].
  destruct (for_each methods _ s c2) as [[l2 c3]|] eqn:E2; [|done].
  intros [= <- <-].
  apply (for_each_length methods _ 1) in E2; [simpl in E2; lia|].
  clear. intros method s c s' c'.
  unfold each_method, try_except, bind, lift, ret, retN.
  destruct (match dpi with JDict d => dict_has d method | _ => false end);
    [|intros [= <- _]; lia].
  destruct (getitem dpi method) as [operation|]; [|intros [= <- _]; lia].
  destruct (is_dict operation); cbn [negb]; [|intros [= <- _]; lia].
  destruct (build_operation _ _ _ _ _ _ _ _ _ c) as [[[unit|e] c6]|]; [| |done].
  - intros [= <- _]. rewrite length_app. simpl. lia.
  - intros [= <- _]. lia.
Qed.

End OperationMore.

Section OperationOutcome.
Variable spec : json.
Variable base_url : option string.
Variable py_str : json → string.
Variable exn_str : exn → string.

Lemma safe_get_str_default obj key (d1 d2 : string) :
  is_str (safe_get obj key (JStr d1)) = is_str (safe_get obj key (JStr d2)).
Proof.
  unfold safe_get. destruct obj; try done. by destruct (dict_find (JStr key) d).
Qed.

(** X6.  An operation of a path with a string key is built, and so is in
    the result, exactly when its [operationId] is missing or a string and
    the url of its first server is a string; otherwise it is left out. *)
Theorem operation_built_iff (endpoint : string) dpi path_parameters method operation
    (c : gmap string json) :
  ∃ servers c1,
    extract_servers spec base_url py_str exn_str dpi operation c = Some (servers, c1)
    ∧ ((∃ unit c', build_operation spec base_url py_str exn_str (JStr endpoint) dpi
                     path_parameters method operation c = Some (Ok unit, c'))
       ↔ (is_str (safe_get operation "operationId" (JStr "")) = true
          ∧ ∃ server others url,
              servers = server :: others
              ∧ dict_find (JStr "url") server = Some (JStr url))).
Proof.
  destruct (returns_extract_servers spec base_url py_str exn_str dpi operation c)
    as [[servers c1] Es].
  exists servers, c1. split; [done|]. split.
  - intros ([info tags] & c' & Hb).
    pose proof (build_operation_name_tags _ _ _ _ _ _ _ _ _ _ _ _ _ Hb)
      as (e0 & opid & _ & Ho & _ & _).
    apply build_operation_inv in Hb
      as (e & name & servers' & c2 & base & ps & c3 & body & c4 & resp
          & _ & Hs & Hu & _).
    rewrite Es in Hs. injection Hs as <- <-. split.
    + rewrite (safe_get_str_default _ _ _ (method +:+ "_" +:+ path_slug e0)).
      by rewrite Ho.
    + destruct (extract_servers_nonempty _ _ _ _ _ _ _ _ _ Es) as [Hne Hall].
      destruct servers as [| server others]; [done|].
      inversion_clear Hall as [| ? ? [u Hurl] _].
      unfold first_server_url in Hu. rewrite Hurl in Hu. simpl in Hu.
      destruct u; try done. by eexists _, _, _.
  - intros (Ho & server & others & url & -> & Hurl).
    rewrite (safe_get_str_default _ _ _ (method +:+ "_" +:+ path_slug endpoint)) in Ho.
    unfold build_operation. cbn zeta. unfold bind, lift, noraise, ret.
    destruct (safe_get operation "operationId" _); try done.
    rewrite Es. unfold first_server_url. rewrite Hurl. cbn [default].
    destruct (returns_convert_parameters spec py_str
                (merge_parameters path_parameters
                   (safe_get operation "parameters" (JList []))) c1) as [[ps c2] ->].
    destruct (returns_convert_request_body spec py_str
                (safe_get operation "requestBody" (JDict [])) c2) as [[body c3] ->].
    destruct (returns_convert_response spec py_str
                (safe_get operation "responses" (JDict [])) c3) as [[resp c4] ->].
    by eexists _, _.
Qed.


End OperationOutcome.

(** ** The resolver, continued *)

Section ResolverMore.
Variable spec : json.
Variable py_str : json → string.

Lemma grows_outside_refl visited : Reflexive (grows_outside visited).
Proof. intros c. split; [done|]. intros k Hnone [v Hv]. congruence. Qed.

Lemma grows_outside_trans visited : Transitive (grows_outside visited).
Proof.
  intros c1 c2 c3 [H12 N12] [H23 N23]. split; [by etrans|].
  intros k Hk H3. destruct (c2 !! k) as [v|] eqn:E2.
  - apply N12; [done | by eexists].
  - by apply N23.
Qed.

Lemma grows_outside_weaken visited visited' c c' :
  visited ⊆ visited' → grows_outside visited' c c' → grows_outside visited c c'.
Proof.
  intros Hsub [H N]. split; [done|]. intros k Hk Hs Hin.
  apply (N k Hk Hs). by apply Hsub.
Qed.

Lemma resolve_reference_grows fuel :
  ∀ ref visited c out c',
    resolve_reference spec py_str fuel ref visited c = Some (out, c') →
    grows_outside visited c c'.
Proof.
  induction fuel as [| n IH]; intros ref visited c out c';
    destruct ref as [| | | | s | |]; simpl;
    try (intros [= _ <-]; apply grows_outside_refl).
  - destruct (bool_decide _); [intros [= _ <-]; apply grows_outside_refl|].
    destruct (c !! s); [intros [= _ <-]; apply grows_outside_refl|].
    destruct (negb _); [intros [= _ <-]; apply grows_outside_refl|].
    destruct (navigate _ _); [done|intros [= _ <-]; apply grows_outside_refl].
  - destruct (bool_decide (s ∈ visited)) eqn:Hv;
      [intros [= _ <-]; apply grows_outside_refl|].
    apply bool_decide_eq_false in Hv.
    destruct (c !! s) eqn:Hc; [intros [= _ <-]; apply grows_outside_refl|].
    destruct (negb _); [intros [= _ <-]; apply grows_outside_refl|].
    destruct (navigate spec _) as [cur|]; [|intros [= _ <-]; apply grows_outside_refl].
    destruct (dereference_with _ _ _ _ _ _) as [[v c1]|] eqn:E; [|done].
    intros [= _ <-].
    assert (H1 : grows_outside (visited ∪ {[s]}) c c1).
    { eapply (dereference_with_cache_rel py_str (grows_outside (visited ∪ {[s]})));
        [apply grows_outside_refl | apply grows_outside_trans | | exact E].
      intros r c0 o c0'. apply IH. }
    destruct H1 as [Hsub Hnew].
    assert (Hfresh : c1 !! s = None).
    { destruct (c1 !! s) as [w|] eqn:E1; [|done].
      exfalso. apply (Hnew s Hc); [by eexists | set_solver]. }
    split.
    + etrans; [exact Hsub|]. by apply insert_subseteq.
    + intros k Hk Hs. destruct (decide (k = s)) as [->|Hne]; [done|].
      rewrite lookup_insert_ne in Hs by done.
      intros Hin. apply (Hnew k Hk Hs). set_solver.
Qed.

Lemma dereference_fuel_grows fuel obj visited depth c v c' :
  dereference_fuel spec py_str fuel obj visited depth c = Some (v, c') →
  grows_outside visited c c'.
Proof.
  apply (dereference_with_cache_rel py_str (grows_outside visited));
    [apply grows_outside_refl | apply grows_outside_trans |].
  intros r c0 o c0'. apply resolve_reference_grows.
Qed.

(** X8.  The cache only grows: a resolution, and a dereferencing, leave
    every entry that the cache has as it is, and never write an entry for a
    reference that is on the chain. *)
Theorem cache_only_grows :
  (∀ fuel ref visited c out c',
     resolve_reference spec py_str fuel ref visited c = Some (out, c') →
     (∀ k v, c !! k = Some v → c' !! k = Some v)
     ∧ (∀ k, k ∈ visited → c' !! k = c !! k))
  ∧ (∀ fuel obj visited depth c out c',
       dereference_fuel spec py_str fuel obj visited depth c = Some (out, c') →
       (∀ k v, c !! k = Some v → c' !! k = Some v)
       ∧ (∀ k, k ∈ visited → c' !! k = c !! k)).
Proof.
  assert (Huse : ∀ visited (c c' : gmap string json),
    grows_outside visited c c' →
    (∀ k v, c !! k = Some v → c' !! k = Some v)
    ∧ (∀ k, k ∈ visited → c' !! k = c !! k)).
  { intros visited c c' [Hsub Hnew]. split.
    - intros k v Hk. by eapply lookup_weaken.
    - intros k Hin. destruct (c !! k) as [v|] eqn:Ek.
      + by eapply lookup_weaken.
      + destruct (c' !! k) as [w|] eqn:Ek'; [|done].
        exfalso. apply (Hnew k Ek); [by eexists | done]. }
  split.
  - intros fuel ref visited c out c' E. eapply Huse, resolve_reference_grows, E.
  - intros fuel obj visited depth c out c' E. eapply Huse, dereference_fuel_grows, E.
Qed.

(** X9.  A reference that is in the cache keeps its answer for the rest of
    the run: after any dereferencing or resolution made from outside, a
    resolution of it from outside returns the node that was cached. *)
Theorem cached_answer_stable (R : string) (v : json) (c : gmap string json) :
  c !! R = Some v →
  (∀ obj out c', dereference_object spec py_str obj c = Some (out, c') →
     resolve_reference_top spec py_str (JStr R) c' = Some (Ok v, c'))
  ∧ (∀ ref out c', resolve_reference_top spec py_str ref c = Some (out, c') →
       resolve_reference_top spec py_str (JStr R) c' = Some (Ok v, c')).
Proof.
  intros Hc.
  assert (Hhit : ∀ c' : gmap string json, c ⊆ c' →
    resolve_reference_top spec py_str (JStr R) c' = Some (Ok v, c')).
  { intros c' Hsub. unfold resolve_reference_top, fuel_bound. simpl.
    rewrite bool_decide_eq_false_2 by set_solver.
    by rewrite (lookup_weaken _ _ _ _ Hc Hsub). }
  split.
  - intros obj out c' E. apply Hhit. by apply (dereference_fuel_grows _ _ _ _ _ _ _ E).
  - intros ref out c' E. apply Hhit. by apply (resolve_reference_grows _ _ _ _ _ _ E).
Qed.

Lemma dict_set_fresh (acc : dict) k v :
  Forall (λ kv, key_eqb kv.1 k = false) acc → dict_set acc k v = acc ++ [(k, v)].
Proof.
  induction acc as [| [k0 v0] r IH]; intros H; [done|].
  inversion_clear H as [| ? ? H0 Hr]. simpl in *. rewrite H0. by rewrite IH.
Qed.

Lemma distinct_keys_app_cons (acc : dict) k v rest :
  distinct_keys (acc ++ (k, v) :: rest) = true →
  Forall (λ kv, key_eqb kv.1 k = false) acc.
Proof.
  induction acc as [| [k0 v0] r IH]; intros H; [constructor|].
  simpl in H. apply andb_prop in H as [Hk Hr]. constructor; [|by apply IH].
  apply negb_true_iff in Hk. rewrite existsb_app in Hk.
  apply orb_false_iff in Hk as [_ Hk]. simpl in Hk.
  by apply orb_false_iff in Hk as [Hk _].
Qed.

Lemma distinct_keys_app_r (acc rest : dict) :
  distinct_keys (acc ++ rest) = true → distinct_keys rest = true.
Proof.
  induction acc as [| [k0 v0] r IH]; [done|]. simpl.
  intros [_ H]%andb_prop. by apply IH.
Qed.

(** A tree without references is returned as it is, by any resolver. *)
Lemma dereference_with_plain resolve visited obj :
  plain obj = true →
  ∀ depth c, dereference_with py_str resolve obj visited depth c = Some (obj, c).
Proof.
  induction obj as [| | | | | l IH | d IH] using json_tree_ind;
    intros Hp depth c; simpl; destruct (Nat.ltb 50 depth); try done.
  - simpl in Hp.
    match goal with |- ?f l [] c = _ =>
      cut (∀ acc, f l acc c = Some (JList (acc ++ l), c)); [intros H; apply H|] end.
    induction IH as [| x r Hx _ IHr]; intros acc; [by rewrite app_nil_r|].
    simpl in Hp. apply andb_prop in Hp as [Hpx Hpr].
    rewrite (Hx Hpx). rewrite (IHr Hpr). by rewrite <- app_assoc.
  - simpl in Hp. apply andb_prop in Hp as [[Hd Hr]%andb_prop Hp].
    apply negb_true_iff in Hr. unfold dict_has in Hr.
    destruct (dict_find (JStr "$ref") d); [done|].
    match goal with |- ?f d [] c = _ =>
      cut (∀ acc, distinct_keys (acc ++ d) = true →
                  f d acc c = Some (JDict (acc ++ d), c)); [intros H; by apply H|] end.
    clear Hd Hr.
    induction IH as [| [k x] r Hx _ IHr]; intros acc Hacc; [by rewrite app_nil_r|].
    simpl in Hp. apply andb_prop in Hp as [Hpx Hpr]. simpl in Hx.
    rewrite (Hx Hpx).
    rewrite (dict_set_fresh acc k x) by (eapply distinct_keys_app_cons, Hacc).
    rewrite (IHr Hpr); [by rewrite <- app_assoc|].
    by rewrite <- app_assoc.
Qed.

(** X10.  Dereferencing a tree that has no [$ref] key returns the tree as
    it is and leaves the cache as it is. *)
Theorem dereference_plain_identity obj (c : gmap string json) :
  plain obj = true →
  dereference_object spec py_str obj c = Some (obj, c)
  ∧ ∀ fuel visited depth,
      dereference_fuel spec py_str fuel obj visited depth c = Some (obj, c).
Proof.
  intros Hp. split.
  - by apply dereference_with_plain.
  - intros fuel visited depth. by apply dereference_with_plain.
Qed.


End ResolverMore.

(** ** The schema normaliser, continued *)

(** A string is not in a list of literals. *)
Ltac not_in_literals :=
  let Hin := fresh "Hin" in
  intros Hin;
  repeat (apply elem_of_cons in Hin as [Hin | Hin]; [by subst|]);
  by apply elem_of_nil in Hin.

Lemma set_if_truthy_find schema k' js k :
  dict_find (JStr k) (set_if_truthy schema k' js)
  = if String.eqb k' k && truthy (safe_get schema k' JNull)
    then Some (safe_get schema k' JNull) else dict_find (JStr k) js.
Proof.
  unfold set_if_truthy. destruct (truthy _).
  - rewrite dict_find_str_set. simpl. by rewrite andb_true_r.
  - by rewrite andb_false_r.
Qed.

Lemma set_if_not_none_find schema js k' k :
  dict_find (JStr k) (set_if_not_none schema js k')
  = if String.eqb k' k && negb (is_none (safe_get schema k' JNull))
    then Some (safe_get schema k' JNull) else dict_find (JStr k) js.
Proof.
  unfold set_if_not_none. destruct (negb _).
  - rewrite dict_find_str_set. simpl. by rewrite andb_true_r.
  - by rewrite andb_false_r.
Qed.

(** After the constraints have been copied: a constraint that the schema
    has with another value than [None] is there with that value, and every
    other key is as before. *)
Lemma constraints_find schema js k :
  dict_find (JStr k) (fold_left (set_if_not_none schema) constraints js)
  = if bool_decide (k ∈ constraints) && negb (is_none (safe_get schema k JNull))
    then Some (safe_get schema k JNull) else dict_find (JStr k) js.
Proof.
  unfold constraints at 1. cbn [fold_left]. rewrite !set_if_not_none_find.
  destruct (bool_decide (k ∈ constraints)) eqn:Hk.
  - apply bool_decide_eq_true in Hk. unfold constraints in Hk.
    repeat (apply elem_of_cons in Hk as [-> | Hk];
            [simpl; repeat (destruct (negb (is_none _)); try done)|]).
    by apply elem_of_nil in Hk.
  - apply bool_decide_eq_false in Hk. unfold constraints in Hk.
    assert (Hne : ∀ k', k' ∈ constraints → String.eqb k' k = false).
    { intros k' Hk'. apply String.eqb_neq. intros ->. by apply Hk. }
    unfold constraints in Hne.
    rewrite !Hne by (repeat first [by left | right]). done.
Qed.

Lemma convert_body_stages d :
  convert_body d
  = (let? t := infer_type d (safe_get (JDict d) "type" JNull) in
     let? js := typed_keys d t (base_keys d t) in
     Ok (JDict (fold_left (set_if_not_none (JDict d)) constraints js))).
Proof. reflexivity. Qed.

Lemma base_keys_find d t k :
  dict_find (JStr k) (base_keys d t)
  = if String.eqb "type" k then Some t
    else if bool_decide (k ∈ ["description"; "enum"; "format"])
            && truthy (safe_get (JDict d) k JNull)
         then Some (safe_get (JDict d) k JNull) else None.
Proof.
  unfold base_keys. cbn zeta. rewrite !set_if_truthy_find, dict_find_str_set.
  cbn [key_eqb dict_find].
  destruct (String.eqb "format" k) eqn:E1.
  { apply String.eqb_eq in E1 as <-. simpl. by destruct (truthy _). }
  destruct (String.eqb "enum" k) eqn:E2.
  { apply String.eqb_eq in E2 as <-. simpl. by destruct (truthy _). }
  destruct (String.eqb "description" k) eqn:E3.
  { apply String.eqb_eq in E3 as <-. simpl. by destruct (truthy _). }
  cbn [andb]. destruct (String.eqb "type" k); [done|].
  rewrite bool_decide_eq_false_2; [done|].
  apply String.eqb_neq in E1, E2, E3. not_in_literals.
Qed.

Lemma typed_keys_find d t js js' k :
  typed_keys d t js = Ok js' → typed_key k = false →
  dict_find (JStr k) js' = dict_find (JStr k) js.
Proof.
  unfold typed_key. intros H Hk. apply bool_decide_eq_false in Hk.
  assert (Hne : ∀ k', k' ∈ ["items"; "properties"; "required"; "additionalProperties"] →
                      key_eqb (JStr k') (JStr k) = false).
  { intros k' Hk'. simpl. apply String.eqb_neq. intros ->. by apply Hk. }
  revert H. unfold typed_keys, object_properties, object_rest. cbn zeta.
  destruct (str_eq t "array").
  { intros [= <-]. rewrite dict_find_str_set, Hne; [done | set_solver]. }
  destruct (str_eq t "object"); [|by intros [= <-]].
  destruct (truthy (safe_get (JDict d) "properties" (JDict []))).
  - destruct (safe_get (JDict d) "properties" (JDict [])); try done.
    cbn [rbind]. intros [= <-].
    repeat case_match; rewrite ?dict_find_str_set, ?Hne; try done; set_solver.
  - cbn [rbind]. intros [= <-].
    repeat case_match; rewrite ?dict_find_str_set, ?Hne; try done; set_solver.
Qed.

(** The outcome of a conversion: the fallback node after an exception, or
    the node with the inferred type and the keys of the three stages. *)
Lemma convert_outcome d :
  convert_openapi_schema_to_json_schema (JDict d) = type_string
  ∨ ∃ t js,
      infer_type d (safe_get (JDict d) "type" JNull) = Ok t
      ∧ typed_keys d t (base_keys d t) = Ok js
      ∧ convert_openapi_schema_to_json_schema (JDict d)
        = JDict (fold_left (set_if_not_none (JDict d)) constraints js).
Proof.
  rewrite convert_unfold, convert_body_stages.
  destruct (infer_type d _) as [t|]; [|by left]. cbn [rbind].
  destruct (typed_keys d t (base_keys d t)) as [js|] eqn:E; [|by left].
  right. by exists t, js.
Qed.

Lemma convert_outcome_type d t js :
  typed_keys d t (base_keys d t) = Ok js →
  dict_find (JStr "type") (fold_left (set_if_not_none (JDict d)) constraints js) = Some t.
Proof.
  intros E. rewrite constraints_find.
  rewrite bool_decide_eq_false_2 by (unfold constraints; not_in_literals). cbn [andb].
  rewrite (typed_keys_find _ _ _ _ _ E) by done.
  by rewrite base_keys_find.
Qed.

(** X12.  Whatever the input, the normaliser returns an object that has a
    [type] key. *)
Theorem converted_node_has_type (schema : json) :
  ∃ js t, convert_openapi_schema_to_json_schema schema = JDict js
          ∧ dict_find (JStr "type") js = Some t.
Proof.
  assert (Hdefault : ∃ js t, type_string = JDict js ∧ dict_find (JStr "type") js = Some t)
    by (by eexists _, _).
  destruct schema as [| | | | | |d]; try exact Hdefault.
  destruct (convert_outcome d) as [-> | (t & js & _ & E & ->)]; [exact Hdefault|].
  eexists _, t. split; [done|]. by apply convert_outcome_type.
Qed.

Lemma typed_keys_ok d t js0 :
  (∀ v, dict_find (JStr "properties") d = Some v → truthy v = true → is_dict v = true) →
  ∃ js, typed_keys d t js0 = Ok js.
Proof.
  intros Hprops. unfold typed_keys, object_properties. cbn zeta.
  destruct (str_eq t "array"); [by eexists|].
  destruct (str_eq t "object"); [|by eexists].
  assert (Hp : truthy (safe_get (JDict d) "properties" (JDict [])) = true →
               is_dict (safe_get (JDict d) "properties" (JDict [])) = true).
  { unfold safe_get. destruct (dict_find (JStr "properties") d) as [v|] eqn:Ep; [|done].
    by apply Hprops. }
  destruct (truthy (safe_get (JDict d) "properties" (JDict []))); [|by eexists].
  specialize (Hp eq_refl).
  destruct (safe_get (JDict d) "properties" (JDict [])); try done. by eexists.
Qed.

(** X13.  A schema with a declared type (and whose [properties], when
    present, is a map) keeps its type as it is written, keeps its
    [description], [enum] and [format] when they are truthy and drops them
    otherwise, and keeps each of the seven constraints whenever its value is
    not [None], a falsy value such as 0 or [False] included. *)
Theorem declared_schema_passthrough (d : dict) :
  truthy (safe_get (JDict d) "type" JNull) = true →
  (∀ v, dict_find (JStr "properties") d = Some v → truthy v = true → is_dict v = true) →
  let out := convert_openapi_schema_to_json_schema (JDict d) in
  field out "type" = Some (safe_get (JDict d) "type" JNull)
  ∧ (∀ k, k ∈ ["description"; "enum"; "format"] →
       field out k = if truthy (safe_get (JDict d) k JNull)
                     then Some (safe_get (JDict d) k JNull) else None)
  ∧ (∀ k, k ∈ constraints →
       field out k = if is_none (safe_get (JDict d) k JNull)
                     then None else Some (safe_get (JDict d) k JNull)).
Proof.
  intros Ht Hprops out. subst out.
  assert (Hinf : infer_type d (safe_get (JDict d) "type" JNull)
                 = Ok (safe_get (JDict d) "type" JNull))
    by (unfold infer_type; by rewrite Ht).
  destruct (typed_keys_ok d (safe_get (JDict d) "type" JNull)
              (base_keys d (safe_get (JDict d) "type" JNull)) Hprops) as [js E].
  rewrite convert_unfold, convert_body_stages, Hinf. cbn [rbind]. rewrite E. cbn [rbind].
  unfold field. split; [by apply convert_outcome_type|]. split.
  - intros k Hk. rewrite constraints_find.
    rewrite bool_decide_eq_false_2.
    2: { unfold constraints. intros Hin.
         repeat (apply elem_of_cons in Hk as [-> | Hk]; [revert Hin; not_in_literals|]).
         by apply elem_of_nil in Hk. }
    cbn [andb]. rewrite (typed_keys_find _ _ _ _ _ E).
    2: { unfold typed_key. apply bool_decide_eq_false_2. intros Hin.
         repeat (apply elem_of_cons in Hk as [-> | Hk]; [revert Hin; not_in_literals|]).
         by apply elem_of_nil in Hk. }
    rewrite base_keys_find. rewrite (bool_decide_eq_true_2 _ Hk). cbn [andb].
    repeat (apply elem_of_cons in Hk as [-> | Hk]; [done|]).
    by apply elem_of_nil in Hk.
  - intros k Hk. rewrite constraints_find. rewrite (bool_decide_eq_true_2 _ Hk).
    cbn [andb]. destruct (is_none (safe_get (JDict d) k JNull)); [|done]. cbn [negb].
    rewrite (typed_keys_find _ _ _ _ _ E).
    2: { unfold typed_key. apply bool_decide_eq_false_2. intros Hin.
         unfold constraints in Hk.
         repeat (apply elem_of_cons in Hk as [-> | Hk]; [revert Hin; not_in_literals|]).
         by apply elem_of_nil in Hk. }
    rewrite base_keys_find. unfold constraints in Hk.
    repeat (apply elem_of_cons in Hk as [-> | Hk]; [done|]).
    by apply elem_of_nil in Hk.
Qed.

Lemma type_string_type : field type_string "type" = Some (JStr "string").
Proof. reflexivity. Qed.

(** The stages of a conversion that gave a node with another type than the
    one of the fallback node. *)
Lemma convert_outcome_typed d t :
  schema_type_of (convert_openapi_schema_to_json_schema (JDict d)) = Some t →
  t ≠ JStr "string" →
  ∃ js, typed_keys d t (base_keys d t) = Ok js
        ∧ convert_openapi_schema_to_json_schema (JDict d)
          = JDict (fold_left (set_if_not_none (JDict d)) constraints js).
Proof.
  intros Ht Hne. destruct (convert_outcome d) as [Hbad | (t' & js & _ & E & Hc)].
  - rewrite Hbad in Ht. injection Ht as <-. done.
  - rewrite Hc in Ht. unfold schema_type_of, field in Ht.
    rewrite (convert_outcome_type _ _ _ E) in Ht. injection Ht as ->. by exists js.
Qed.

(** X14.  When the node that comes out is an array, its [items] is the
    conversion of the [items] of the schema, and the string schema when the
    schema has no [items]. *)
Theorem array_items_converted (d : dict) :
  schema_type_of (convert_openapi_schema_to_json_schema (JDict d)) = Some (JStr "array") →
  field (convert_openapi_schema_to_json_schema (JDict d)) "items"
  = Some (convert_openapi_schema_to_json_schema (safe_get (JDict d) "items" (JDict [])))
  ∧ (dict_find (JStr "items") d = None →
     field (convert_openapi_schema_to_json_schema (JDict d)) "items" = Some type_string).
Proof.
  intros Ht.
  destruct (convert_outcome_typed d _ Ht) as (js & E & ->); [done|].
  assert (Hitems : dict_find (JStr "items")
             (fold_left (set_if_not_none (JDict d)) constraints js)
           = Some (convert_openapi_schema_to_json_schema
                     (safe_get (JDict d) "items" (JDict [])))).
  { rewrite constraints_find.
    rewrite bool_decide_eq_false_2 by (unfold constraints; not_in_literals).
    cbn [andb]. unfold typed_keys in E. cbn [str_eq String.eqb] in E.
    simpl in E. injection E as <-. by rewrite dict_find_str_set. }
  split; [exact Hitems|].
  intros Hnone. unfold field. rewrite Hitems. unfold safe_get. by rewrite Hnone.
Qed.

Lemma distinct_keys_same_keys (l l' : dict) :
  l.*1 = l'.*1 → distinct_keys l = distinct_keys l'.
Proof.
  revert l'. induction l as [| [k v] r IH]; intros [| [k' v'] r']; try done.
  simpl. intros [= -> Hr]. rewrite (IH r' Hr). f_equal. f_equal.
  clear IH. revert r' Hr. induction r as [| [k0 v0] r IH]; intros [| [k1 v1] r1]; try done.
  simpl. intros [= -> Hr]. by rewrite (IH r1 Hr).
Qed.

Lemma each_property_map f (ps : dict) : ∀ acc,
  distinct_keys (acc ++ ps) = true →
  each_property f ps acc = acc ++ map (λ kv : json * json, (kv.1, f kv.2)) ps.
Proof.
  induction ps as [| [k v] r IH]; intros acc Hd; simpl; [by rewrite app_nil_r|].
  rewrite (dict_set_fresh acc k (f v)) by (eapply distinct_keys_app_cons, Hd).
  rewrite IH; [by rewrite <- app_assoc|].
  rewrite <- Hd. apply distinct_keys_same_keys.
  rewrite <- app_assoc. by rewrite !fmap_app.
Qed.

(** X15.  When the node that comes out is an object: its [properties] is
    the map of the schema with every value converted, in the same order,
    and there is no such key when the schema has no property; its
    [required] is the list of the schema as it is written; its
    [additionalProperties] is the value of the schema, converted when it is
    a map and as it is otherwise. *)
Theorem object_keys_converted (d : dict) :
  schema_type_of (convert_openapi_schema_to_json_schema (JDict d)) = Some (JStr "object") →
  let out := convert_openapi_schema_to_json_schema (JDict d) in
  (∀ ps, dict_find (JStr "properties") d = Some (JDict ps) → distinct_keys ps = true →
     field out "properties"
     = match ps with [] => None | _ => Some (JDict (converted_properties ps)) end)
  ∧ (dict_find (JStr "properties") d = None → field out "properties" = None)
  ∧ field out "required"
    = (if truthy (safe_get (JDict d) "required" (JList []))
       then Some (safe_get (JDict d) "required" (JList [])) else None)
  ∧ field out "additionalProperties"
    = match dict_find (JStr "additionalProperties") d with
      | None | Some JNull => None
      | Some (JDict a) => Some (convert_openapi_schema_to_json_schema (JDict a))
      | Some v => Some v
      end.
Proof.
  intros Ht out. subst out.
  destruct (convert_outcome_typed d _ Ht) as (js & E & ->); [done|].
  unfold field.
  assert (Hfind : ∀ k, typed_key k = true →
    dict_find (JStr k) (fold_left (set_if_not_none (JDict d)) constraints js)
    = dict_find (JStr k) js).
  { intros k Hk. rewrite constraints_find. rewrite bool_decide_eq_false_2; [done|].
    unfold typed_key in Hk. apply bool_decide_eq_true in Hk. unfold constraints.
    intros Hin.
    repeat (apply elem_of_cons in Hk as [-> | Hk]; [revert Hin; not_in_literals|]).
    by apply elem_of_nil in Hk. }
  rewrite !Hfind by done. clear Hfind.
  unfold typed_keys in E. simpl in E.
  destruct (object_properties d (base_keys d (JStr "object"))) as [js1|] eqn:Ep;
    [|done].
  cbn [rbind] in E. injection E as <-.
  assert (Hbase : ∀ k, typed_key k = true →
    dict_find (JStr k) (base_keys d (JStr "object")) = None).
  { intros k Hk. rewrite base_keys_find.
    unfold typed_key in Hk. apply bool_decide_eq_true in Hk.
    repeat (apply elem_of_cons in Hk as [-> | Hk]; [done|]).
    by apply elem_of_nil in Hk. }
  assert (Hother : ∀ k, String.eqb "properties" k = false →
    dict_find (JStr k) js1 = dict_find (JStr k) (base_keys d (JStr "object"))).
  { intros k Hk. revert Ep. unfold object_properties. cbn zeta.
    destruct (truthy _); [|by intros [= <-]].
    destruct (safe_get (JDict d) "properties" (JDict [])); try done.
    intros [= <-]. rewrite dict_find_str_set. cbn [key_eqb]. by rewrite Hk. }
  assert (Hrest : ∀ k, k = "properties" →
    dict_find (JStr k) (object_rest d js1) = dict_find (JStr k) js1).
  { intros k ->. unfold object_rest. cbn zeta.
    repeat case_match; by rewrite ?dict_find_str_set. }
  repeat split.
  - intros ps Hps Hd. rewrite (Hrest _ eq_refl). revert Ep.
    unfold object_properties, safe_get. cbn zeta. rewrite Hps.
    destruct ps as [| kv ps']; cbn [truthy].
    + intros [= <-]. by apply Hbase.
    + intros [= <-]. rewrite dict_find_str_set. cbn [key_eqb].
      rewrite String.eqb_refl.
      apply (f_equal (λ x, Some (JDict x))
               (each_property_map convert_openapi_schema_to_json_schema
                  (kv :: ps') [] Hd)).
  - intros Hnone. rewrite (Hrest _ eq_refl). revert Ep.
    unfold object_properties, safe_get. cbn zeta. rewrite Hnone. cbn [truthy].
    intros [= <-]. by apply Hbase.
  - unfold object_rest. cbn zeta.
    destruct (truthy (safe_get (JDict d) "required" (JList []))).
    + repeat case_match; by rewrite ?dict_find_str_set.
    + repeat case_match; rewrite ?dict_find_str_set; simpl;
        rewrite Hother by done; by apply Hbase.
  - unfold object_rest, safe_get. cbn zeta.
    destruct (dict_find (JStr "additionalProperties") d) as [v|].
    + destruct v; cbn [is_none negb is_dict]; rewrite ?dict_find_str_set; try done.
      destruct (truthy _); rewrite ?dict_find_str_set; simpl;
        rewrite Hother by done; by apply Hbase.
    + cbn [is_none negb].
      destruct (truthy _); rewrite ?dict_find_str_set; simpl;
        rewrite Hother by done; by apply Hbase.
Qed.

(** X16.  An object schema (declared, or a schema without a type) whose
    [properties] is truthy and is not a map does not convert: the node
    degrades to the string schema, with nothing kept of it. *)
Theorem bad_properties_degrade (d : dict) (v : json) :
  safe_get (JDict d) "type" JNull = JStr "object"
  ∨ truthy (safe_get (JDict d) "type" JNull) = false →
  dict_find (JStr "properties") d = Some v →
  truthy v = true → is_dict v = false →
  convert_openapi_schema_to_json_schema (JDict d) = type_string.
Proof.
  intros Hty Hp Tv Dv.
  assert (Hinf : infer_type d (safe_get (JDict d) "type" JNull) = Ok (JStr "object")).
  { unfold infer_type, dict_has. destruct Hty as [-> | ->]; [done|].
    cbn [negb]. by rewrite Hp. }
  rewrite convert_unfold, convert_body_stages, Hinf. cbn [rbind].
  unfold typed_keys, object_properties, safe_get. simpl. rewrite Hp, Tv.
  by destruct v.
Qed.

(** ** Parameters, request body and response, continued *)

Section ConversionMore.
Variable spec : json.
Variable py_str : json → string.

Lemma dict_set_nonempty (d : dict) k v : dict_set d k v ≠ [].
Proof. destruct d as [| [k0 v0] r]; simpl; [done|]. by destruct (key_eqb k0 k). Qed.

Lemma fold_step_required dps : ∀ st,
  (fold_left step_parameter dps st).2
  = st.2 ++ map param_name (List.filter entered_required dps).
Proof.
  induction dps as [| dp r IH]; intros st; simpl; [by rewrite app_nil_r|].
  rewrite IH. unfold step_parameter, entered_required, entered.
  destruct (truthy (param_name dp) && hashable (param_name dp)); cbn [andb]; [|done].
  destruct (truthy (safe_get dp "required" (JBool false))); cbn [snd]; [|done].
  simpl. by rewrite <- app_assoc.
Qed.

Lemma fold_step_empty dps : ∀ st,
  (fold_left step_parameter dps st).1 = [] ↔
  st.1 = [] ∧ Forall (λ dp, entered dp = false) dps.
Proof.
  induction dps as [| dp r IH]; intros st; simpl.
  - split; [by intros ->|by intros [-> _]].
  - rewrite IH. unfold step_parameter, entered.
    destruct (truthy (param_name dp) && hashable (param_name dp)) eqn:E; cbn [fst].
    + split.
      * intros [H _]. by apply dict_set_nonempty in H.
      * intros [_ H]. inversion_clear H as [| ? ? H1 _]. congruence.
    + split.
      * intros [H1 H2]. split; [done|]. by constructor.
      * intros [H1 H2]. split; [done|]. by inversion_clear H2.
Qed.

(** X17.  The parameter schema is the empty object exactly when no
    parameter is entered: every parameter, once dereferenced, has a name
    that is falsy (missing, empty) or unhashable. *)
Theorem parameters_empty_iff (parameters : list json) (c : gmap string json) :
  ∃ dps c' out,
    deref_each spec py_str parameters c = Some (dps, c')
    ∧ convert_parameters_to_json_schema spec py_str parameters c = Some (out, c')
    ∧ (out = JDict [] ↔ Forall (λ dp, entered dp = false) dps).
Proof.
  destruct (returns_deref_each spec py_str parameters c) as [[dps c'] Hd].
  rewrite convert_parameters_run.
  destruct parameters as [| x r].
  { simpl in Hd. injection Hd as <- <-. eexists [], c, _.
    split; [done|]. split; [done|]. by split. }
  rewrite Hd. eexists dps, c', _. split; [done|]. split; [done|].
  pose proof (fold_step_empty dps ([], [])) as Hempty.
  unfold parameters_schema.
  destruct (fold_left step_parameter dps ([], [])).1 as [| kv P] eqn:E.
  - split; [|done]. intros _. by apply Hempty.
  - split; [done|]. intros H. by assert (kv :: P = []) by (by apply Hempty).
Qed.

(** X18.  The [required] list of a parameter schema holds the name of
    every entered parameter that is marked required, in the order of the
    parameters, a name once for each parameter that has it. *)
Theorem parameters_required_list (parameters : list json) (c : gmap string json) :
  ∃ dps c' out,
    deref_each spec py_str parameters c = Some (dps, c')
    ∧ convert_parameters_to_json_schema spec py_str parameters c = Some (out, c')
    ∧ (out ≠ JDict [] →
       field out "required"
       = Some (JList (map param_name (List.filter entered_required dps)))).
Proof.
  destruct (returns_deref_each spec py_str parameters c) as [[dps c'] Hd].
  rewrite convert_parameters_run.
  destruct parameters as [| x r].
  { eexists dps, c', _. simpl in Hd. injection Hd as <- <-.
    split; [done|]. split; [done|]. done. }
  rewrite Hd. eexists dps, c', _. split; [done|]. split; [done|].
  pose proof (fold_step_required dps ([], [])) as Hreq.
  unfold parameters_schema.
  destruct (fold_left step_parameter dps ([], [])) as [P R]. cbn [fst snd] in *.
  destruct P; [done|]. intros _. by rewrite Hreq.
Qed.

Lemma preferred_schema_not_dict content : ∀ media_types,
  is_dict content = false →
  (∃ e, preferred_schema media_types content = Raise e)
  ∨ preferred_schema media_types content = Ok (JDict []).
Proof.
  induction media_types as [| m r IH]; intros Hd; [by right|].
  cbn [preferred_schema].
  destruct (py_in m content) as [[|]|e] eqn:Ein; cbn [rbind].
  - left. destruct content; try done; by eexists.
  - by apply IH.
  - left. by eexists.
Qed.

(** A content that is not a map with an entry gives no schema. *)
Lemma content_schema_unusable media_types content :
  (∀ kv r, content ≠ JDict (kv :: r)) →
  (∃ e, content_schema media_types content = Raise e)
  ∨ content_schema media_types content = Ok (JDict []).
Proof.
  intros Hc. unfold content_schema.
  destruct (is_dict content) eqn:Hd.
  - destruct content as [| | | | | |[|kv r]]; try done; [|by destruct (Hc kv r)].
    rewrite preferred_schema_none by (apply Forall_forall; done). by right.
  - destruct (preferred_schema_not_dict content media_types Hd) as [[e ->] | ->];
      [left; by eexists|].
    cbn [rbind truthy negb andb].
    destruct (truthy content); cbn [rbind]; [|by right].
    left. destruct content; try done; by eexists.
Qed.


(** X20.  The first status code from 200 to 299 that the responses have
    decides alone: when its response has no content map with an entry, the
    result is the empty object, whatever the responses of the later
    codes. *)
Theorem response_without_content (responses : json) (c : gmap string json) :
  ∃ dereferenced c',
    deref spec py_str responses c = Some (dereferenced, c')
    ∧ ∀ d n response_data,
        dereferenced = JDict d →
        first_2xx d n response_data →
        (∀ kv r, safe_get response_data "content" (JDict []) ≠ JDict (kv :: r)) →
        convert_response_to_json_schema spec py_str responses c = Some (JDict [], c').
Proof.
  destruct (returns_deref spec py_str responses c) as [[dr c'] E].
  exists dr, c'. split; [done|]. intros d n rd -> (Hr & Hn & Hbefore) Hc.
  unfold convert_response_to_json_schema.
  destruct (truthy responses) eqn:T; cbn [negb].
  - unfold try_except, bind, noraise, lift. rewrite E.
    rewrite (first_response_found d n rd 100 200) by first [done | lia]. cbn [rbind].
    destruct (truthy rd); cbn [negb]; [|done].
    by destruct (content_schema_unusable response_media_types _ Hc) as [[e ->] | ->].
  - rewrite (dereference_falsy _ _ _ _ T) in E. by injection E as -> ->.
Qed.

End ConversionMore.

(** ** Servers, continued *)

Section ServerMore.
Variable spec : json.
Variable base_url : option string.
Variable py_str : json → string.
Variable exn_str : exn → string.

(** X21.  [extract_servers] never returns an empty list, and every server
    it returns has exactly the keys url, description and variables. *)
Theorem servers_shape path_item operation (c : gmap string json) :
  ∃ servers c',
    extract_servers spec base_url py_str exn_str path_item operation c
    = Some (servers, c')
    ∧ servers ≠ [] ∧ Forall server_shape servers.
Proof.
  rewrite extract_servers_run.
  destruct (returns_deref_each spec py_str
              (working_servers (servers_at spec) (servers_at path_item)
                 (servers_at operation)) c) as [[dss c'] ->].
  eexists _, c'. split; [done|]. cbn zeta.
  assert (Hf : Forall server_shape (omap server_descriptor dss)).
  { apply Forall_forall. intros s (ds & _ & Hs)%list_elem_of_omap.
    unfold server_descriptor in Hs. destruct (is_dict ds); [|done].
    injection Hs as <-. by eexists _, _, _. }
  assert (Hr : or_placeholder (omap server_descriptor dss) ≠ []
    ∧ Forall server_shape (or_placeholder (omap server_descriptor dss))).
  { unfold or_placeholder. destruct (omap server_descriptor dss); [|done].
    split; [done|]. repeat constructor. by eexists _, _, _. }
  destruct Hr as [Hne Hall].
  destruct (base_url_set base_url) as [b|]; [|done]. split.
  - intros Hmap. by apply fmap_nil_inv in Hmap.
  - apply Forall_fmap. eapply Forall_impl; [exact Hall|].
    intros s (u & d & v & ->). by eexists _, _, _.
Qed.

End ServerMore.

(** ** The descriptive extractors *)

Section Descriptions.
Variable spec : json.
Variable py_str : json → string.
Variable exn_str : exn → string.

Lemma deref_each_length l : ∀ c dps c',
  deref_each spec py_str l c = Some (dps, c') → length dps = length l.
Proof.
  induction l as [| x r IH]; intros c dps c'; simpl.
  - by intros [= <- <-].
  - unfold bindN. destruct (deref spec py_str x c) as [[dp c1]|]; [|done].
    destruct (deref_each spec py_str r c1) as [[dps' c2]|] eqn:E; [|done].
    intros [= <- <-]. simpl. f_equal. by eapply IH.
Qed.

Lemma for_each_extract_parameter l : ∀ a acc c,
  for_each (zip (seq a (length l)) l) (extract_parameter spec py_str exn_str) acc c
  = match deref_each spec py_str l c with
    | Some (dps, c') => Some (acc ++ imap (λ i, parameter_description (a + i)) dps, c')
    | None => None
    end.
Proof.
  induction l as [| x r IH]; intros a acc c; simpl.
  - by rewrite app_nil_r.
  - unfold bindN at 1 2. unfold extract_parameter at 1.
    unfold try_except, bind, noraise, ret. cbn [fst snd].
    destruct (deref spec py_str x c) as [[dp c1]|]; [|done].
    rewrite IH. unfold bindN, retN.
    destruct (deref_each spec py_str r c1) as [[dps c2]|]; [|done].
    rewrite imap_cons, <- app_assoc. simpl. do 3 f_equal.
    rewrite Nat.add_0_r. unfold parameter_description at 2. f_equal.
    apply imap_ext. intros i dp' _. simpl. f_equal. lia.
Qed.

(** X22.  [extract_parameters] describes every parameter, in order: one
    entry for each, made of seven keys read from the dereferenced
    parameter, where a parameter without a name is called [param_<i>] after
    its index and one without a location is a query parameter. *)
Theorem extract_parameters_described (parameters : list json) (c : gmap string json) :
  ∃ dps c',
    deref_each spec py_str parameters c = Some (dps, c')
    ∧ length dps = length parameters
    ∧ extract_parameters spec py_str exn_str parameters c
      = Some (imap parameter_description dps, c').
Proof.
  destruct (returns_deref_each spec py_str parameters c) as [[dps c'] Hd].
  exists dps, c'. split; [done|]. split; [by eapply deref_each_length|].
  unfold extract_parameters, enumerate.
  destruct parameters as [| x r].
  - simpl in Hd. by injection Hd as <- <-.
  - cbn [truthy negb]. by rewrite for_each_extract_parameter, Hd.
Qed.

Lemma for_each_extract_header l : ∀ acc c,
  for_each l (extract_header spec py_str) acc c
  = match deref_each spec py_str l c with
    | Some (dps, c') => Some (acc ++ map header_description (List.filter is_header dps), c')
    | None => None
    end.
Proof.
  induction l as [| x r IH]; intros acc c; simpl.
  - by rewrite app_nil_r.
  - unfold bindN at 1 2. unfold extract_header at 1.
    unfold try_except, bind, noraise. 
    destruct (deref spec py_str x c) as [[dp c1]|]; [|done].
    assert (Hrest : ∀ acc',
      for_each r (extract_header spec py_str) acc' c1
      = match bindN (deref_each spec py_str r) (λ vs, retN (dp :: vs)) c1 with
        | Some (dps, c') =>
            Some (acc' ++ map header_description
                            (List.filter is_header (List.tl dps)), c')
        | None => None
        end).
    { intros acc'. rewrite IH. unfold bindN, retN.
      by destruct (deref_each spec py_str r c1) as [[dps c2]|]. }
    unfold ret. destruct (str_eq (safe_get dp "in" JNull) "header") eqn:Hin;
      rewrite Hrest; unfold bindN, retN;
      destruct (deref_each spec py_str r c1) as [[dps c2]|]; try done;
      cbn [List.filter List.tl]; unfold is_header at 2; rewrite Hin; [|done].
    cbn [map]. by rewrite <- app_assoc.
Qed.

(** X23.  [extract_headers] describes the parameters of the operation
    whose location, once dereferenced, is the string "header", in their
    order, and no other one; an operation whose [parameters] is not a list
    has no headers. *)
Theorem extract_headers_described (operation : json) (c : gmap string json) :
  (∀ l, safe_get operation "parameters" (JList []) = JList l →
     ∃ dps c',
       deref_each spec py_str l c = Some (dps, c')
       ∧ extract_headers spec py_str operation c
         = Some (map header_description (List.filter is_header dps), c'))
  ∧ (is_list (safe_get operation "parameters" (JList [])) = false →
     extract_headers spec py_str operation c = Some ([], c)).
Proof.
  unfold extract_headers, try_except, noraise, ret. split.
  - intros l ->. rewrite for_each_extract_header.
    destruct (returns_deref_each spec py_str l c) as [[dps c'] ->]. by exists dps, c'.
  - by destruct (safe_get operation "parameters" (JList [])).
Qed.

(** A loop that sets one key for each item it keeps, on items with
    different keys, builds the kept entries in the order of the items. *)
Lemma fold_described (g : json * json → option (json * json))
    (step : dict → json * json → dict) :
  (∀ acc item, step acc item
     = match g item with Some kv => dict_set acc kv.1 kv.2 | None => acc end) →
  (∀ item kv, g item = Some kv → kv.1 = item.1) →
  ∀ items prefix,
    distinct_keys (prefix ++ items) = true →
    fold_left step items (omap g prefix) = omap g (prefix ++ items).
Proof.
  intros Hstep Hkey. induction items as [| item r IH]; intros prefix Hd.
  - by rewrite app_nil_r.
  - cbn [fold_left]. rewrite Hstep.
    replace (prefix ++ item :: r) with ((prefix ++ [item]) ++ r) in *
      by (by rewrite <- app_assoc).
    rewrite <- IH by done. f_equal. rewrite omap_app. cbn [omap].
    destruct (g item) as [kv|] eqn:E; cbn [omap list_omap]; rewrite E;
      [|by rewrite app_nil_r].
    destruct kv as [k v]. cbn [fst snd]. apply dict_set_fresh.
    apply Hkey in E. cbn [fst] in E. subst k. destruct item as [k0 v0].
    rewrite <- app_assoc in Hd. apply distinct_keys_app_cons in Hd.
    apply Forall_forall. intros kv (it & Hin & Hit)%list_elem_of_omap.
    apply Hkey in Hit. rewrite Hit.
    rewrite Forall_forall in Hd. by apply Hd.
Qed.

Lemma media_entries_described (content : dict) :
  distinct_keys content = true →
  media_entries (JDict content) = described_media content.
Proof.
  intros Hd. unfold media_entries, described_media.
  apply (fold_described _ media_entry) with (prefix := []); [| |done].
  - intros acc item. unfold media_entry. by destruct (is_dict item.2).
  - intros item kv. destruct (is_dict item.2); [|done]. by intros [= <-].
Qed.

(** X24.  [extract_request_body] keeps the description and the required
    flag of the dereferenced body and describes, in their order, the media
    types of its content whose info is a map; a media type whose info is
    not a map is left out. *)
Theorem extract_request_body_described (request_body : json) (c : gmap string json) :
  truthy request_body = true →
  ∃ dereferenced c',
    deref spec py_str request_body c = Some (dereferenced, c')
    ∧ ∀ content,
        safe_get dereferenced "content" (JDict []) = JDict content →
        distinct_keys content = true →
        extract_request_body spec py_str exn_str request_body c
        = Some (JDict [(JStr "description",
                        safe_get dereferenced "description" (JStr ""));
                       (JStr "required",
                        safe_get dereferenced "required" (JBool false));
                       (JStr "content", JDict (described_media content))], c').
Proof.
  intros T. destruct (returns_deref spec py_str request_body c) as [[db c'] E].
  exists db, c'. split; [done|]. intros content Hc Hd.
  unfold extract_request_body. rewrite T. cbn [negb].
  unfold try_except, bind, noraise, ret. rewrite E, Hc.
  by rewrite media_entries_described.
Qed.

(** X25.  [extract_responses] describes, in their order, the status codes
    of the dereferenced responses whose response is a map, each with its
    description, its headers and its described content; a status code
    whose response is not a map is left out. *)
Theorem extract_responses_described (responses : json) (c : gmap string json) :
  truthy responses = true →
  ∃ dereferenced c',
    deref spec py_str responses c = Some (dereferenced, c')
    ∧ ∀ items,
        dereferenced = JDict items →
        distinct_keys items = true →
        extract_responses spec py_str exn_str responses c
        = Some (JDict (described_responses items), c').
Proof.
  intros T. destruct (returns_deref spec py_str responses c) as [[dr c'] E].
  exists dr, c'. split; [done|]. intros items -> Hd.
  unfold extract_responses. rewrite T. cbn [negb].
  unfold try_except, bind, noraise, ret. rewrite E. do 3 f_equal.
  unfold described_responses.
  apply (fold_described _ response_entry) with (prefix := []); [| |done].
  - intros acc item. unfold response_entry. by destruct (is_dict item.2).
  - intros item kv. destruct (is_dict item.2); [|done]. by intros [= <-].
Qed.

End Descriptions.

(** ** The further properties on the sample document *)

(** X2 on the sample document. *)
Lemma descriptors_shape_witness :
  Forall (λ unit, descriptor_shape unit.1 ∧ truthy unit.2 = true) extracted.
Proof.
  apply (descriptors_shape api None no_str no_exn ∅ extracted extracted_cache).
  vm_compute. reflexivity.
Defined.

(** X3 on the sample document. *)
Lemma descriptor_names_witness :
  Forall (λ unit, ∃ n, field unit.1 "name" = Some (JStr n)
                       ∧ all_alnum n ∧ normalize_name n = n) extracted.
Proof.
  apply (descriptor_names_normalized api None no_str no_exn ∅ extracted extracted_cache).
  vm_compute. reflexivity.
Defined.

(** X4 on the operation [get] of "/v1/users/{id}", which has no
    [operationId]. *)
Lemma synthesized_name_witness :
  ∃ n, field get_info "name" = Some (JStr n)
       ∧ n = "get" +:+ fold_left (λ acc word, acc +:+ capitalize word)
                         (alnum_words "" (path_slug "/v1/users/{id}")) ""
       ∧ n ≠ "".
Proof.
  apply (synthesized_name api None no_str no_exn "/v1/users/{id}" user_item_deref
           (JList [id_of_path]) "get" get_user ∅ get_info get_tags get_cache).
  - left. reflexivity.
  - reflexivity.
  - vm_compute. reflexivity.
Defined.

Example synthesized_name_example : field get_info "name" = Some (JStr "getV1UsersId").
Proof. vm_compute. reflexivity. Qed.

(** X5 on the sample document: one path, at most eight descriptors. *)
Lemma extract_paths_count_witness : length extracted ≤ 8 * length (path_items api).
Proof.
  apply (extract_paths_count api None no_str no_exn ∅ extracted extracted_cache).
  vm_compute. reflexivity.
Defined.

(** X6 on the operation [put]: its [operationId] is a string and its first
    server has a string as url, so it is built. *)
Lemma operation_built_witness :
  ∃ unit c', build_operation api None no_str no_exn (JStr "/v1/users/{id}")
               user_item_deref (JList [id_of_path]) "put" put_user ∅
             = Some (Ok unit, c').
Proof.
  destruct (operation_built_iff api None no_str no_exn "/v1/users/{id}" user_item_deref
              (JList [id_of_path]) "put" put_user ∅) as (servers & c1 & Hs & Hiff).
  vm_compute in Hs. injection Hs as <- <-.
  apply Hiff. split; [reflexivity|].
  eexists _, _, _. split; reflexivity.
Defined.


(** X8 on the resolution of the reference to [limit]. *)
Lemma cache_only_grows_witness :
  (∀ k v, (∅ : gmap string json) !! k = Some v → limit_cache !! k = Some v)
  ∧ (∀ k, k ∈ ({[ "#/other" ]} : gset string)
          → limit_cache !! k = (∅ : gmap string json) !! k).
Proof.
  apply (proj1 (cache_only_grows api no_str) (fuel_bound api) (JStr limit_ref)
           {[ "#/other" ]} ∅ (Ok limit) limit_cache).
  vm_compute. reflexivity.
Defined.

(** X9: once the reference to [limit] is in the cache, dereferencing
    [get_user] leaves its answer in place. *)
Lemma cached_answer_witness :
  resolve_reference_top api no_str (JStr limit_ref) get_user_cache
  = Some (Ok limit, get_user_cache).
Proof.
  apply (proj1 (cached_answer_stable api no_str limit_ref limit limit_cache eq_refl)
           get_user (default JNull (fst <$> dereference_object api no_str get_user limit_cache))).
  vm_compute. reflexivity.
Defined.

(** X10 on a path item without references. *)
Lemma dereference_plain_witness :
  dereference_object api no_str plain_item ∅ = Some (plain_item, ∅)
  ∧ ∀ fuel visited depth,
      dereference_fuel api no_str fuel plain_item visited depth ∅ = Some (plain_item, ∅).
Proof. apply (dereference_plain_identity api no_str plain_item ∅). reflexivity. Defined.


(** X13 on an integer with a description and a minimum. *)
Lemma declared_schema_witness :
  let out := convert_openapi_schema_to_json_schema (JDict bounded_integer) in
  field out "type" = Some (safe_get (JDict bounded_integer) "type" JNull)
  ∧ (∀ k, k ∈ ["description"; "enum"; "format"] →
       field out k = if truthy (safe_get (JDict bounded_integer) k JNull)
                     then Some (safe_get (JDict bounded_integer) k JNull) else None)
  ∧ (∀ k, k ∈ constraints →
       field out k = if is_none (safe_get (JDict bounded_integer) k JNull)
                     then None else Some (safe_get (JDict bounded_integer) k JNull)).
Proof.
  apply (declared_schema_passthrough bounded_integer).
  - reflexivity.
  - intros v Hv. discriminate Hv.
Defined.

(** X14 on an array without [items]: the items are strings. *)
Lemma array_items_witness :
  field (convert_openapi_schema_to_json_schema (JDict untyped_list)) "items"
  = Some type_string.
Proof. apply (proj2 (array_items_converted untyped_list eq_refl) eq_refl). Defined.

(** X15 on an object with two properties. *)
Lemma object_keys_witness :
  field (convert_openapi_schema_to_json_schema (JDict user_schema)) "properties"
  = Some (JDict (converted_properties user_properties)).
Proof.
  apply (proj1 (object_keys_converted user_schema eq_refl) user_properties eq_refl eq_refl).
Defined.

(** X16 on a schema whose [properties] is a list. *)
Lemma bad_properties_witness :
  convert_openapi_schema_to_json_schema (JDict listed_properties) = type_string.
Proof.
  apply (bad_properties_degrade listed_properties (JList [JInt 1]));
    [right|..]; reflexivity.
Defined.

(** X17 on a parameter without a name: the schema is empty. *)
Lemma parameters_empty_witness :
  convert_parameters_to_json_schema api no_str [nameless] ∅ = Some (JDict [], ∅).
Proof.
  destruct (parameters_empty_iff api no_str [nameless] ∅)
    as (dps & c' & out & Hd & -> & Hiff).
  vm_compute in Hd. injection Hd as <- <-.
  assert (out = JDict []) as -> by (apply Hiff; by repeat constructor).
  reflexivity.
Defined.

(** X18 on the path-level [id], the required operation-level [id] and
    [limit]: the list is [["id"]]. *)
Lemma parameters_required_witness :
  ∃ out,
    convert_parameters_to_json_schema api no_str [id_of_path; id_of_operation; limit] ∅
    = Some (out, ∅)
    ∧ field out "required" = Some (JList [JStr "id"]).
Proof.
  destruct (parameters_required_list api no_str [id_of_path; id_of_operation; limit] ∅)
    as (dps & c' & out & Hd & Hc & Hreq).
  vm_compute in Hd. injection Hd as <- <-.
  exists out. split; [exact Hc|].
  rewrite Hreq; [reflexivity|].
  intros ->. vm_compute in Hc. discriminate Hc.
Defined.


(** X20 on responses whose "200" has no content and whose "201" has one. *)
Lemma response_without_content_witness :
  convert_response_to_json_schema api no_str (JDict responses_200_201) ∅
  = Some (JDict [], ∅).
Proof.
  destruct (response_without_content api no_str (JDict responses_200_201) ∅)
    as (dr & c' & Hd & H).
  vm_compute in Hd. injection Hd as <- <-.
  apply (H responses_200_201 200 no_content).
  - reflexivity.
  - split; [lia|]. split; [reflexivity|]. intros m Hm. lia.
  - intros kv r Hc. discriminate Hc.
Defined.

(** X23 on an operation with a query and a header parameter. *)
Lemma extract_headers_witness :
  extract_headers api no_str traced ∅ = Some ([header_description x_request_id], ∅).
Proof.
  destruct (proj1 (extract_headers_described api no_str traced ∅) [limit; x_request_id]
              eq_refl) as (dps & c' & Hd & ->).
  vm_compute in Hd. injection Hd as <- <-. reflexivity.
Defined.

(** X24 on the text/csv body: text/plain, whose info is not a map, is left
    out. *)
Lemma extract_request_body_witness :
  extract_request_body api no_str no_exn csv_body ∅
  = Some (JDict [(JStr "description", JStr "rows");
                 (JStr "required", JBool false);
                 (JStr "content",
                  JDict [(JStr "text/csv", media_description csv_media)])], ∅).
Proof.
  destruct (extract_request_body_described api no_str no_exn csv_body ∅ eq_refl)
    as (db & c' & Hd & H).
  vm_compute in Hd. injection Hd as <- <-.
  apply (H csv_content); reflexivity.
Defined.

(** X25 on the responses "200" and "201" and an entry that is not a
    response. *)
Lemma extract_responses_witness :
  extract_responses api no_str no_exn (JDict responses_200_201) ∅
  = Some (JDict [(JStr "200", response_description no_content);
                 (JStr "201", response_description created)], ∅).
Proof.
  destruct (extract_responses_described api no_str no_exn (JDict responses_200_201) ∅
              eq_refl) as (dr & c' & Hd & H).
  vm_compute in Hd. injection Hd as <- <-.
  apply (H responses_200_201); reflexivity.
Defined.
